(** * live-proctoring: the exam-session risk and warning state machine

    A shallow embedding of [server.js]: the three arrays of [MOCK_DB], the
    four REST handlers that read and write them, and the two lookup tables
    [calculateRisk] and [getWarningMessage].

    Conventions of the embedding.
    - A JS array is a [list]; [push] appends at the end; [find] is stdpp's
      [list_find], which returns the first match together with its index;
      the object [find] returns is shared with the array, so a field
      assignment on it is the list update [<[i:=_]>] at that index.
    - The numbers of the program ([riskScore], [warnings], [impact]) are
      integers, modelled in [Z].  Every processed event pushes one log
      entry and a JS array holds fewer than 2^32 elements, so the counters
      stay far below 2^53, where the arithmetic of JS numbers is exact.
    - [Date.now()] and [new Date()] are inputs of a handler: the clock
      readings it is given.  [toString] on a reading is decimal printing.
    - [io.to(room).emit(name, payload)] appends to the list of emissions a
      handler returns, in program order.
    - Request fields that the handlers compare or switch on ([username],
      [sessionId], [eventType]) are strings.  Fields that are only stored
      ([userId], [examId], [timestamp], [metadata]) are kept as their JSON
      text. *)

From stdpp Require Import base decidable option list strings pretty.
From Stdlib Require Import ZArith Lia.

Open Scope Z_scope.

(** ** Risk rules *)

(** [calculateRisk], a [switch] with strict string comparison. *)
Definition calculateRisk (eventType : string) : Z :=
  if decide (eventType = "tab_switch") then 15
  else if decide (eventType = "no_face") then 20
  else if decide (eventType = "multiple_faces") then 35
  else if decide (eventType = "looking_away") then 10
  else if decide (eventType = "voice_detected") then 25
  else if decide (eventType = "fast_answering") then 5
  else 0.

(** [getWarningMessage]. *)
Definition getWarningMessage (eventType : string) : string :=
  if decide (eventType = "tab_switch") then "Warning: Please stay on the exam tab."
  else if decide (eventType = "no_face") then "Warning: No face detected in webcam."
  else if decide (eventType = "multiple_faces") then "Warning: Multiple faces detected!"
  else if decide (eventType = "looking_away") then "Warning: Please stay focused on the screen."
  else if decide (eventType = "voice_detected") then "Warning: Voice detected in the background."
  else "Warning: Suspicious activity detected.".

(** ** Records of the mock storage *)

Module User.
Inductive status_t := active.
Record t := mk {
  id : string;
  username : string;
  status : status_t
}.
End User.

Module ExamSession.
Inductive status_t := ongoing | high_risk.
Record t := mk {
  id : string;
  userId : string;
  examId : string;
  startTime : Z;
  riskScore : Z;
  warnings : Z;
  status : status_t
}.

Definition set_riskScore (v : Z) (s : t) : t :=
  mk (id s) (userId s) (examId s) (startTime s) v (warnings s) (status s).
Definition set_warnings (v : Z) (s : t) : t :=
  mk (id s) (userId s) (examId s) (startTime s) (riskScore s) v (status s).
Definition set_status (v : status_t) (s : t) : t :=
  mk (id s) (userId s) (examId s) (startTime s) (riskScore s) (warnings s) v.
End ExamSession.

Module LogEntry.
Record t := mk {
  id : string;
  sessionId : string;
  eventType : string;
  timestamp : string;
  metadata : string;
  impact : Z
}.
End LogEntry.

(** [MOCK_DB]. *)
Record MockDb := mkDb {
  users : list User.t;
  examSessions : list ExamSession.t;
  logs : list LogEntry.t
}.

Definition MOCK_DB : MockDb := mkDb [] [] [].

(** ** Socket.IO emissions *)

Inductive Payload :=
| warning (type message : string) (currentWarnings riskScore : Z)
| high_risk (message : string).

Record Emit := mkEmit { room : string; payload : Payload }.

Definition is_warning (e : Emit) : bool :=
  match payload e with warning _ _ _ _ => true | high_risk _ => false end.

Definition is_high_risk (e : Emit) : bool :=
  match payload e with high_risk _ => true | warning _ _ _ _ => false end.

(** ** Responses *)

Record Report := mkReport {
  session : ExamSession.t;
  events : list LogEntry.t;
  totalWarnings : Z;
  finalRiskScore : Z
}.

Inductive Response :=
| LoginOk (user : User.t) (token : string)
| StartOk (session : ExamSession.t)
| EventOk (log : LogEntry.t) (session : ExamSession.t)
| ReportOk (report : Report)
| NotFound (error : string).

Record Outcome := mkOutcome {
  db_after : MockDb;
  response : Response;
  emitted : list Emit
}.

(** ** The handlers *)

(** [POST /api/auth/login].  [faceEmbedding] is read from the body and never
    used. *)
Definition login (db : MockDb) (username : string) (now : Z) : Outcome :=
  match list_find (λ u, User.username u = username) (users db) with
  | Some (_, user) =>
      mkOutcome db (LoginOk user ("fake-jwt-token-" +:+ User.id user)) []
  | None =>
      let user := User.mk (pretty now) username User.active in
      mkOutcome (mkDb (users db ++ [user]) (examSessions db) (logs db))
                (LoginOk user ("fake-jwt-token-" +:+ User.id user)) []
  end.

(** [POST /api/exam/start]. *)
Definition start (db : MockDb) (userId examId : string) (now date : Z) : Outcome :=
  let session :=
    ExamSession.mk (pretty now) userId examId date 0 0 ExamSession.ongoing in
  mkOutcome (mkDb (users db) (examSessions db ++ [session]) (logs db))
            (StartOk session) [].

(** Lines 69 to 88 of the event handler: what it does to the session object
    it found, and what it emits to the room [sessionId]. *)
Definition score_event (session : ExamSession.t) (sessionId eventType : string)
  : ExamSession.t * list Emit :=
  let eventRiskScore := calculateRisk eventType in
  let session :=
    ExamSession.set_riskScore
      (Z.min 100 (ExamSession.riskScore session + eventRiskScore)) session in
  let '(session, out1) :=
    if decide (0 < eventRiskScore) then
      let session :=
        ExamSession.set_warnings (ExamSession.warnings session + 1) session in
      (session,
       [mkEmit sessionId
          (warning eventType (getWarningMessage eventType)
             (ExamSession.warnings session) (ExamSession.riskScore session))])
    else (session, []) in
  let '(session, out2) :=
    if decide (3 ≤ ExamSession.warnings session) then
      (ExamSession.set_status ExamSession.high_risk session,
       [mkEmit sessionId (high_risk "High risk marked: Too many warnings.")])
    else (session, []) in
  (session, out1 ++ out2).

(** [POST /api/exam/event]. *)
Definition event (db : MockDb) (sessionId eventType timestamp metadata : string)
    (now : Z) : Outcome :=
  match list_find (λ s, ExamSession.id s = sessionId) (examSessions db) with
  | None => mkOutcome db (NotFound "Session not found") []
  | Some (i, session) =>
      let '(session, out) := score_event session sessionId eventType in
      let logEntry :=
        LogEntry.mk (pretty now) sessionId eventType timestamp metadata
          (calculateRisk eventType) in
      mkOutcome
        (mkDb (users db) (<[i:=session]> (examSessions db)) (logs db ++ [logEntry]))
        (EventOk logEntry session) out
  end.

(** [GET /api/exam/report/:sessionId]. *)
Definition report (db : MockDb) (sessionId : string) : Outcome :=
  let session := list_find (λ s, ExamSession.id s = sessionId) (examSessions db) in
  let sessionLogs := filter (λ l, LogEntry.sessionId l = sessionId) (logs db) in
  match session with
  | None => mkOutcome db (NotFound "Session not found") []
  | Some (_, session) =>
      mkOutcome db
        (ReportOk (mkReport session sessionLogs
                     (ExamSession.warnings session) (ExamSession.riskScore session)))
        []
  end.

(** ** Sequences of requests *)

Inductive Request :=
| Login (username : string) (now : Z)
| Start (userId examId : string) (now date : Z)
| Event (sessionId eventType timestamp metadata : string) (now : Z)
| GetReport (sessionId : string).

Definition handle (db : MockDb) (r : Request) : Outcome :=
  match r with
  | Login username now => login db username now
  | Start userId examId now date => start db userId examId now date
  | Event sessionId eventType timestamp metadata now =>
      event db sessionId eventType timestamp metadata now
  | GetReport sessionId => report db sessionId
  end.

(** The store after serving [rs] in order. *)
Definition serve (db : MockDb) (rs : list Request) : MockDb :=
  foldl (λ db r, db_after (handle db r)) db rs.

(** Everything emitted while serving [rs], in order. *)
Fixpoint emissions (db : MockDb) (rs : list Request) : list Emit :=
  match rs with
  | [] => []
  | r :: rs => emitted (handle db r) ++ emissions (db_after (handle db r)) rs
  end.

(** ** The events of one session

    Session ids come from the clock, so two sessions can carry the same id;
    [find] then always returns the older one.  A session is therefore named
    by its index in [examSessions], which never changes: the array only
    grows at its end. *)

(** The session that an event request is processed on, if any: the index of
    the object that [find] returns. *)
Definition target (db : MockDb) (r : Request) : option (nat * string) :=
  match r with
  | Event sessionId eventType _ _ _ =>
      match list_find (λ s, ExamSession.id s = sessionId) (examSessions db) with
      | Some (j, _) => Some (j, eventType)
      | None => None
      end
  | _ => None
  end.

(** The event types processed on the session at index [i] while [rs] is
    served from [db], in order. *)
Fixpoint events_on (i : nat) (db : MockDb) (rs : list Request) : list string :=
  match rs with
  | [] => []
  | r :: rs =>
      let rest := events_on i (db_after (handle db r)) rs in
      match target db r with
      | Some (j, eventType) => if decide (j = i) then eventType :: rest else rest
      | None => rest
      end
  end.

(** The session object after the events [evs] were processed on it. *)
Definition scored (s : ExamSession.t) (evs : list string) : ExamSession.t :=
  foldl (λ s ev, (score_event s (ExamSession.id s) ev).1) s evs.

(** A session as [start] creates it. *)
Definition fresh (s : ExamSession.t) : Prop :=
  ExamSession.riskScore s = 0 ∧ ExamSession.warnings s = 0
  ∧ ExamSession.status s = ExamSession.ongoing.

(** The quantities the specification speaks of. *)
Definition sum_impacts (evs : list string) : Z :=
  foldr Z.add 0 (calculateRisk <$> evs).

Definition risky (evs : list string) : Z :=
  Z.of_nat (length (filter (λ ev, 0 < calculateRisk ev) evs)).

Definition high_risk_emit (sessionId : string) : Emit :=
  mkEmit sessionId (high_risk "High risk marked: Too many warnings.").

Definition warning_emit (sessionId eventType : string) (s : ExamSession.t) : Emit :=
  mkEmit sessionId
    (warning eventType (getWarningMessage eventType)
       (ExamSession.warnings s) (ExamSession.riskScore s)).

(** The emissions of a handler, by kind. *)
Definition warnings_in (out : list Emit) : list Emit :=
  filter (λ e, is_warning e) out.

Definition high_risks_in (out : list Emit) : list Emit :=
  filter (λ e, is_high_risk e) out.

(** The log entry a response reports as written. *)
Definition logged (resp : Response) : list LogEntry.t :=
  match resp with
  | EventOk logEntry _ => [logEntry]
  | _ => []
  end.

(** ** Scenarios *)

(** What the request at position [n] of [rs] emits when [rs] is served from
    the empty store. *)
Definition emitted_at (rs : list Request) (n : nat) : list Emit :=
  match rs !! n with
  | Some r => emitted (handle (serve MOCK_DB (take n rs)) r)
  | None => []
  end.

(** The first session of the store once the first [n] requests of [rs] were
    served from the empty store. *)
Definition session_after (rs : list Request) (n : nat) : option ExamSession.t :=
  examSessions (serve MOCK_DB (take n rs)) !! 0%nat.

(** The response to the request at position [n] of [rs]. *)
Definition response_at (rs : list Request) (n : nat) : option Response :=
  (λ r, response (handle (serve MOCK_DB (take n rs)) r)) <$> rs !! n.

(** The three fields of a session that events change. *)
Definition summary (s : ExamSession.t) : Z * Z * ExamSession.status_t :=
  (ExamSession.riskScore s, ExamSession.warnings s, ExamSession.status s).

(** One session, four events, and the report. *)
Definition scenario : list Request :=
  [ Start "u1" "exam1" 1000 1000;
    Event "1000" "tab_switch" "t1" "{}" 1001;
    Event "1000" "looking_away" "t2" "{}" 1002;
    Event "1000" "multiple_faces" "t3" "{}" 1003;
    Event "1000" "fast_answering" "t4" "{}" 1004;
    GetReport "1000" ].

(** One session, three warnings, then an event of an unknown type and one
    more warning. *)
Definition past_threshold : list Request :=
  [ Start "u1" "exam1" 1000 1000;
    Event "1000" "tab_switch" "t1" "{}" 1001;
    Event "1000" "tab_switch" "t2" "{}" 1002;
    Event "1000" "tab_switch" "t3" "{}" 1003;
    Event "1000" "blink" "t4" "{}" 1004;
    Event "1000" "no_face" "t5" "{}" 1005 ].

(** ** Quantities read off the stores *)

(** The log entries of one session id, as the report handler filters them. *)
Definition logs_of (db : MockDb) (sessionId : string) : list LogEntry.t :=
  filter (λ l, LogEntry.sessionId l = sessionId) (logs db).

Definition total_impact (ls : list LogEntry.t) : Z :=
  foldr Z.add 0 (LogEntry.impact <$> ls).

Definition warning_entries (ls : list LogEntry.t) : Z :=
  Z.of_nat (length (filter (λ l, 0 < LogEntry.impact l) ls)).

(** What the event handler keeps true of a session object. *)
Definition session_ok (s : ExamSession.t) : Prop :=
  0 ≤ ExamSession.warnings s
  ∧ Z.min 100 (5 * ExamSession.warnings s) ≤ ExamSession.riskScore s
  ∧ ExamSession.riskScore s ≤ Z.min 100 (35 * ExamSession.warnings s)
  ∧ (ExamSession.status s = ExamSession.high_risk ↔ 3 ≤ ExamSession.warnings s).

(** The session found for an id agrees with the log entries of that id. *)
Definition agrees (db : MockDb) (sessionId : string) : Prop :=
  match list_find (λ s, ExamSession.id s = sessionId) (examSessions db) with
  | Some (_, s) =>
      ExamSession.riskScore s = Z.min 100 (total_impact (logs_of db sessionId))
      ∧ ExamSession.warnings s = warning_entries (logs_of db sessionId)
  | None => logs_of db sessionId = []
  end.

(** The clock readings [Date.now()] of the start requests of [rs], in
    order. *)
Definition started (rs : list Request) : list Z :=
  omap (λ r, match r with Start _ _ now _ => Some now | _ => None end) rs.

(** ** The chat reply

    A message is held as the bytes of its UTF-8 text.  [toLowerCase] is
    modelled on the ASCII letters, which is what the two tests of
    [getAIInvigilatorReply] depend on: the search strings are ASCII, and a
    character outside ASCII never lowers to one of their letters in a
    position where it could take part in a match (U+0130 lowers to an i
    followed by a combining dot, U+212A to a k). *)

Definition lower_char (c : Ascii.ascii) : Ascii.ascii :=
  let n := Ascii.N_of_ascii c in
  if ((65 <=? n) && (n <=? 90))%N then Ascii.ascii_of_N (n + 32) else c.

Fixpoint toLowerCase (s : string) : string :=
  match s with
  | EmptyString => EmptyString
  | String c s => String (lower_char c) (toLowerCase s)
  end.

(** [String.prototype.includes]: some suffix of [s] starts with
    [searchString]. *)
Fixpoint includes (s searchString : string) : bool :=
  if String.prefix searchString s then true
  else match s with
       | EmptyString => false
       | String _ s => includes s searchString
       end.

(** [getAIInvigilatorReply]. *)
Definition getAIInvigilatorReply (message : string) : string :=
  let msg := toLowerCase message in
  if includes msg "help" then
    "I am your virtual invigilator. Please stay focused on the exam. Do you have a technical issue?"
  else if includes msg "time" then
    "The timer is displayed on your screen. Please manage your time effectively."
  else
    "Please remain quiet and focus on your exam. Unnecessary chatting may be flagged.".

(** ** Risk rules: the table *)

Lemma calculateRisk_nonneg ev : 0 ≤ calculateRisk ev.
Proof. unfold calculateRisk. repeat case_decide; lia. Qed.

(** ** One event on one session object *)

Section ScoreEvent.
Variables (s : ExamSession.t) (sessionId eventType : string).

Let s' := (score_event s sessionId eventType).1.

Lemma score_event_riskScore :
  ExamSession.riskScore s'
  = Z.min 100 (ExamSession.riskScore s + calculateRisk eventType).
Proof.
  subst s'. unfold score_event.
  repeat case_decide; reflexivity.
Qed.

Lemma score_event_warnings :
  ExamSession.warnings s'
  = if decide (0 < calculateRisk eventType)
    then ExamSession.warnings s + 1 else ExamSession.warnings s.
Proof.
  subst s'. unfold score_event.
  repeat case_decide; reflexivity.
Qed.

Lemma score_event_status :
  ExamSession.status s'
  = if decide (3 ≤ ExamSession.warnings s')
    then ExamSession.high_risk else ExamSession.status s.
Proof.
  subst s'. unfold score_event.
  destruct (decide (0 < calculateRisk eventType)); cbn;
    repeat case_decide; cbn in *; try reflexivity; lia.
Qed.

Lemma score_event_id : ExamSession.id s' = ExamSession.id s.
Proof.
  subst s'. unfold score_event.
  repeat case_decide; reflexivity.
Qed.

Lemma score_event_emitted :
  (score_event s sessionId eventType).2
  = (if decide (0 < calculateRisk eventType)
     then [warning_emit sessionId eventType s'] else [])
    ++ (if decide (3 ≤ ExamSession.warnings s')
        then [high_risk_emit sessionId] else []).
Proof.
  subst s'. unfold score_event.
  destruct (decide (0 < calculateRisk eventType)); cbn;
    repeat case_decide; cbn in *; try reflexivity; lia.
Qed.
End ScoreEvent.

Lemma score_event_room s sid1 sid2 ev :
  (score_event s sid1 ev).1 = (score_event s sid2 ev).1.
Proof. unfold score_event. repeat case_decide; reflexivity. Qed.

(** ** One request on the store *)

Lemma event_found db sessionId eventType timestamp metadata now i s :
  list_find (λ s, ExamSession.id s = sessionId) (examSessions db) = Some (i, s) →
  event db sessionId eventType timestamp metadata now
  = let logEntry :=
      LogEntry.mk (pretty now) sessionId eventType timestamp metadata
        (calculateRisk eventType) in
    mkOutcome
      (mkDb (users db)
         (<[i:=(score_event s sessionId eventType).1]> (examSessions db))
         (logs db ++ [logEntry]))
      (EventOk logEntry (score_event s sessionId eventType).1)
      (score_event s sessionId eventType).2.
Proof.
  intros Hfind. unfold event. rewrite Hfind.
  destruct (score_event s sessionId eventType); reflexivity.
Qed.

Lemma event_not_found db sessionId eventType timestamp metadata now :
  list_find (λ s, ExamSession.id s = sessionId) (examSessions db) = None →
  event db sessionId eventType timestamp metadata now
  = mkOutcome db (NotFound "Session not found") [].
Proof. intros Hfind. unfold event. rewrite Hfind. reflexivity. Qed.

(** What one request does to the session at index [i]. *)
Lemma handle_session db r i s :
  examSessions db !! i = Some s →
  examSessions (db_after (handle db r)) !! i
  = Some (match target db r with
          | Some (j, ev) =>
              if decide (j = i) then (score_event s (ExamSession.id s) ev).1 else s
          | None => s
          end).
Proof.
  intros Hi. destruct r as [u now|u e now date|sid ev ts md now|sid]; cbn.
  - unfold login. destruct (list_find _ _) as [[??]|]; cbn; [done|done].
  - by apply lookup_app_l_Some.
  - destruct (list_find _ _) as [[j sj]|] eqn:Hfind.
    + rewrite (event_found _ _ _ _ _ _ _ _ Hfind). cbn.
      apply list_find_Some in Hfind as (Hj & Hid & _).
      destruct (decide (j = i)) as [->|Hne].
      * rewrite list_lookup_insert_eq by (by eapply lookup_lt_Some).
        assert (sj = s) as -> by congruence.
        f_equal. rewrite Hid. reflexivity.
      * by rewrite list_lookup_insert_ne.
    + by rewrite (event_not_found _ _ _ _ _ _ Hfind).
  - unfold report. destruct (list_find _ _) as [[??]|]; done.
Qed.

(** The session at index [i] after a sequence of requests: the events
    processed on it, applied in order. *)
Lemma serve_session rs : ∀ db i s,
  examSessions db !! i = Some s →
  examSessions (serve db rs) !! i = Some (scored s (events_on i db rs)).
Proof.
  induction rs as [|r rs IH]; intros db i s Hi; [done|].
  cbn [events_on]. unfold serve. cbn [foldl]. fold (serve (db_after (handle db r)) rs).
  pose proof (handle_session db r i s Hi) as Hstep.
  destruct (target db r) as [[j ev]|]; [destruct (decide (j = i))|];
    rewrite (IH _ _ _ Hstep); reflexivity.
Qed.

Lemma serve_app db rs1 rs2 : serve db (rs1 ++ rs2) = serve (serve db rs1) rs2.
Proof. apply foldl_app. Qed.

Lemma events_on_app i rs1 : ∀ db rs2,
  events_on i db (rs1 ++ rs2)
  = events_on i db rs1 ++ events_on i (serve db rs1) rs2.
Proof.
  induction rs1 as [|r rs1 IH]; intros db rs2; [done|].
  cbn [app events_on]. rewrite IH.
  unfold serve at 2. cbn [foldl]. fold (serve (db_after (handle db r)) rs1).
  destruct (target db r) as [[j ev]|]; [destruct (decide (j = i))|]; reflexivity.
Qed.

(** ** Sequences of events on one session object *)

Lemma scored_snoc s evs ev :
  scored s (evs ++ [ev])
  = (score_event (scored s evs) (ExamSession.id (scored s evs)) ev).1.
Proof. unfold scored. by rewrite foldl_app. Qed.

Lemma sum_impacts_snoc evs ev :
  sum_impacts (evs ++ [ev]) = sum_impacts evs + calculateRisk ev.
Proof.
  unfold sum_impacts. induction evs as [|e evs IH]; cbn; [lia|].
  rewrite IH. lia.
Qed.

Lemma sum_impacts_nonneg evs : 0 ≤ sum_impacts evs.
Proof.
  unfold sum_impacts. induction evs as [|e evs IH]; cbn; [lia|].
  pose proof (calculateRisk_nonneg e). lia.
Qed.

Lemma risky_snoc evs ev :
  risky (evs ++ [ev])
  = if decide (0 < calculateRisk ev) then risky evs + 1 else risky evs.
Proof.
  unfold risky. rewrite filter_app, length_app.
  rewrite filter_cons, filter_nil. case_decide; cbn [length]; lia.
Qed.

Lemma risky_nonneg evs : 0 ≤ risky evs.
Proof. unfold risky. lia. Qed.

Lemma scored_riskScore s evs :
  ExamSession.riskScore s = 0 →
  ExamSession.riskScore (scored s evs) = Z.min 100 (sum_impacts evs).
Proof.
  intros Hs. induction evs as [|ev evs IH] using rev_ind; [by cbn|].
  rewrite scored_snoc, score_event_riskScore, IH, sum_impacts_snoc.
  pose proof (calculateRisk_nonneg ev). pose proof (sum_impacts_nonneg evs). lia.
Qed.

Lemma scored_warnings s evs :
  ExamSession.warnings s = 0 →
  ExamSession.warnings (scored s evs) = risky evs.
Proof.
  intros Hs. induction evs as [|ev evs IH] using rev_ind; [by cbn|].
  rewrite scored_snoc, score_event_warnings, IH, risky_snoc. reflexivity.
Qed.

Lemma scored_status s evs :
  fresh s →
  ExamSession.status (scored s evs)
  = if decide (3 ≤ risky evs) then ExamSession.high_risk else ExamSession.ongoing.
Proof.
  intros (_ & Hw & Hst). induction evs as [|ev evs IH] using rev_ind.
  - cbn. rewrite Hst. reflexivity.
  - rewrite scored_snoc, score_event_status, <- scored_snoc.
    rewrite (scored_warnings _ _ Hw), IH, risky_snoc.
    pose proof (risky_nonneg evs). repeat case_decide; try reflexivity; lia.
Qed.

Lemma sum_impacts_app evs1 evs2 :
  sum_impacts (evs1 ++ evs2) = sum_impacts evs1 + sum_impacts evs2.
Proof.
  unfold sum_impacts. induction evs1 as [|e evs1 IH]; cbn; [lia|].
  rewrite IH. lia.
Qed.

(** An event request that [find] resolves to index [i]: the object found is
    the session stored there. *)
Lemma target_event db sid ev ts md now i s :
  examSessions db !! i = Some s →
  target db (Event sid ev ts md now) = Some (i, ev) →
  list_find (λ s, ExamSession.id s = sid) (examSessions db) = Some (i, s).
Proof.
  intros Hi. cbn. destruct (list_find _ _) as [[j sj]|] eqn:Hfind; [|done].
  intros [= ->]. apply list_find_Some in Hfind as Hj.
  destruct Hj as (Hj & _). congruence.
Qed.

Lemma score_event_warnings_in s sid ev :
  warnings_in (score_event s sid ev).2
  = if decide (0 < calculateRisk ev)
    then [warning_emit sid ev (score_event s sid ev).1] else [].
Proof.
  rewrite score_event_emitted. unfold warnings_in.
  repeat case_decide; reflexivity.
Qed.

Lemma score_event_high_risks_in s sid ev :
  high_risks_in (score_event s sid ev).2
  = if decide (3 ≤ ExamSession.warnings (score_event s sid ev).1)
    then [high_risk_emit sid] else [].
Proof.
  rewrite score_event_emitted. unfold high_risks_in.
  repeat case_decide; reflexivity.
Qed.

(** ** Risk score *)

(** C2.  For a session created fresh and every sequence of requests served
    afterwards, the session's [riskScore] is [min 100] of the sum of the
    impacts of the events processed on it; every further event on it sets
    [riskScore] to [min 100 (previous + impact)]; the score never exceeds
    100; and once it is 100 it is 100 after any further requests. *)
Theorem riskScore_clamped_sum db i s rs :
  examSessions db !! i = Some s →
  fresh s →
  ∃ s1,
    examSessions (serve db rs) !! i = Some s1
    ∧ ExamSession.riskScore s1 = Z.min 100 (sum_impacts (events_on i db rs))
    ∧ ExamSession.riskScore s1 ≤ 100
    ∧ (∀ sid ev ts md now,
         target (serve db rs) (Event sid ev ts md now) = Some (i, ev) →
         ∃ s2,
           examSessions (db_after (event (serve db rs) sid ev ts md now)) !! i
           = Some s2
           ∧ ExamSession.riskScore s2
             = Z.min 100 (ExamSession.riskScore s1 + calculateRisk ev))
    ∧ (ExamSession.riskScore s1 = 100 →
       ∀ rs', ∃ s2,
         examSessions (serve db (rs ++ rs')) !! i = Some s2
         ∧ ExamSession.riskScore s2 = 100).
Proof.
  intros Hi (Hr & _ & _).
  pose proof (serve_session rs db i s Hi) as H1.
  exists (scored s (events_on i db rs)).
  rewrite (scored_riskScore _ _ Hr).
  split_and!; [done|done|lia| |].
  - intros sid ev ts md now Ht.
    pose proof (handle_session _ (Event sid ev ts md now) _ _ H1) as H2.
    rewrite Ht, decide_True in H2 by done. cbn [handle] in H2.
    eexists; split; [exact H2|].
    by rewrite score_event_riskScore, (scored_riskScore _ _ Hr).
  - intros Hfull rs'.
    pose proof (serve_session (rs ++ rs') db i s Hi) as H2.
    eexists; split; [exact H2|].
    rewrite (scored_riskScore _ _ Hr), events_on_app, sum_impacts_app.
    pose proof (sum_impacts_nonneg (events_on i (serve db rs) rs')). lia.
Qed.

(** ** Warnings *)

(** C3.  For a session created fresh and every sequence of requests served
    afterwards, [warnings] is the number of events processed on the session
    whose impact is positive; a further event on it with positive impact
    adds exactly 1 and emits one [warning]; one with impact 0 leaves
    [warnings] as it is and emits no [warning]. *)
Theorem warnings_count_risky_events db i s rs :
  examSessions db !! i = Some s →
  fresh s →
  ∃ s1,
    examSessions (serve db rs) !! i = Some s1
    ∧ ExamSession.warnings s1 = risky (events_on i db rs)
    ∧ ∀ sid ev ts md now,
        target (serve db rs) (Event sid ev ts md now) = Some (i, ev) →
        let o := event (serve db rs) sid ev ts md now in
        ∃ s2,
          examSessions (db_after o) !! i = Some s2
          ∧ (0 < calculateRisk ev →
             ExamSession.warnings s2 = ExamSession.warnings s1 + 1
             ∧ warnings_in (emitted o) = [warning_emit sid ev s2])
          ∧ (calculateRisk ev = 0 →
             ExamSession.warnings s2 = ExamSession.warnings s1
             ∧ warnings_in (emitted o) = []).
Proof.
  intros Hi (_ & Hw & _).
  pose proof (serve_session rs db i s Hi) as H1.
  exists (scored s (events_on i db rs)).
  split_and!; [done|by apply scored_warnings|].
  intros sid ev ts md now Ht o. subst o.
  rewrite (event_found _ _ _ _ _ _ _ _ (target_event _ _ _ _ _ _ _ _ H1 Ht)).
  cbn [db_after emitted examSessions].
  apply lookup_lt_Some in H1 as Hlt.
  rewrite list_lookup_insert_eq by done.
  eexists; split; [reflexivity|].
  rewrite score_event_warnings, score_event_warnings_in.
  split; intros Himp; case_decide; try lia; done.
Qed.

(** ** Status *)

Lemma start_session db userId examId now date :
  examSessions (db_after (start db userId examId now date))
    !! length (examSessions db)
  = Some (ExamSession.mk (pretty now) userId examId date 0 0 ExamSession.ongoing).
Proof. cbn. apply list_lookup_middle. reflexivity. Qed.

(** C4.  A session is created with status [ongoing].  After any sequence of
    requests its status is [high_risk] exactly when 3 or more events with
    positive impact were processed on it, which is when [warnings] is 3 or
    more.  Across one more request, whatever it is, [riskScore] and
    [warnings] do not decrease and a status [high_risk] stays [high_risk]. *)
Theorem status_rises_at_three_warnings db userId examId now date rs :
  let db0 := db_after (start db userId examId now date) in
  let i := length (examSessions db) in
  ∃ s0 s1,
    examSessions db0 !! i = Some s0
    ∧ ExamSession.status s0 = ExamSession.ongoing
    ∧ examSessions (serve db0 rs) !! i = Some s1
    ∧ ExamSession.warnings s1 = risky (events_on i db0 rs)
    ∧ (ExamSession.status s1 = ExamSession.high_risk
       ↔ 3 ≤ ExamSession.warnings s1)
    ∧ (ExamSession.status s1 = ExamSession.ongoing
       ↔ ExamSession.warnings s1 < 3)
    ∧ ∀ r, ∃ s2,
        examSessions (serve db0 (rs ++ [r])) !! i = Some s2
        ∧ ExamSession.riskScore s1 ≤ ExamSession.riskScore s2
        ∧ ExamSession.warnings s1 ≤ ExamSession.warnings s2
        ∧ (ExamSession.status s1 = ExamSession.high_risk →
           ExamSession.status s2 = ExamSession.high_risk).
Proof.
  intros db0 i.
  pose proof (start_session db userId examId now date) as H0.
  fold db0 i in H0.
  set (s0 := ExamSession.mk _ _ _ _ _ _ _) in H0.
  assert (fresh s0) as Hfresh by done.
  pose proof (serve_session rs db0 i s0 H0) as H1.
  set (evs := events_on i db0 rs) in *.
  pose proof (scored_riskScore s0 evs eq_refl) as Hr1.
  pose proof (scored_warnings s0 evs eq_refl) as Hw1.
  pose proof (scored_status s0 evs Hfresh) as Hst1.
  pose proof (sum_impacts_nonneg evs) as Hsum.
  set (s1 := scored s0 evs) in *.
  exists s0, s1.
  split_and!; try done.
  - rewrite Hst1, Hw1. case_decide; split; intros; try done; lia.
  - rewrite Hst1, Hw1. case_decide; split; intros; try done; lia.
  - intros r. rewrite serve_app. cbn.
    pose proof (handle_session _ r _ _ H1) as H2.
    eexists; split; [exact H2|].
    destruct (target (serve db0 rs) r) as [[j ev]|]; [destruct (decide (j = i))|];
      try (split_and!; [lia|lia|done]).
    rewrite score_event_riskScore, score_event_warnings, score_event_status.
    rewrite score_event_warnings.
    pose proof (calculateRisk_nonneg ev).
    split_and!; repeat case_decide; try lia; done.
Qed.

(** ** The [high_risk] notification *)

(** C1, as the code has it.  For a session created fresh, an event processed
    on it emits the [high_risk] notification exactly when, counting this
    event, 3 or more events with positive impact were processed on the
    session: on the event that brings [warnings] to 3 and on every event
    after it. *)
Theorem high_risk_emitted_from_threshold_on db i s rs sid ev ts md now :
  examSessions db !! i = Some s →
  fresh s →
  target (serve db rs) (Event sid ev ts md now) = Some (i, ev) →
  high_risks_in (emitted (event (serve db rs) sid ev ts md now))
  = if decide (3 ≤ risky (events_on i db rs ++ [ev]))
    then [high_risk_emit sid] else [].
Proof.
  intros Hi Hfresh Ht.
  pose proof (serve_session rs db i s Hi) as H1.
  rewrite (event_found _ _ _ _ _ _ _ _ (target_event _ _ _ _ _ _ _ _ H1 Ht)).
  cbn [emitted]. rewrite score_event_high_risks_in.
  rewrite (score_event_room _ sid (ExamSession.id (scored s (events_on i db rs)))).
  rewrite <- scored_snoc, scored_warnings by apply Hfresh.
  reflexivity.
Qed.

(** C1 as stated fails: with three warnings reached at the third event, the
    zero-impact fourth event and the fifth event each emit [high_risk]
    again, three emissions in all. *)
Lemma high_risk_emitted_three_times :
  high_risks_in (emitted_at past_threshold 3) = [high_risk_emit "1000"]
  ∧ high_risks_in (emitted_at past_threshold 4) = [high_risk_emit "1000"]
  ∧ high_risks_in (emitted_at past_threshold 5) = [high_risk_emit "1000"]
  ∧ length (high_risks_in (emissions MOCK_DB past_threshold)) = 3%nat
  ∧ length (high_risks_in (emissions MOCK_DB past_threshold)) ≠ 1%nat.
Proof. vm_compute. done. Qed.

(** ** Unknown session ids *)

(** C5.  An event for a session id that no stored session carries is
    answered with the 404 error, and the outcome holds the store as it was
    and no emission: no log entry, no change to any record. *)
Theorem event_unknown_session_leaves_store db sid ev ts md now :
  (∀ s, s ∈ examSessions db → ExamSession.id s ≠ sid) →
  event db sid ev ts md now = mkOutcome db (NotFound "Session not found") [].
Proof.
  intros Hnone. apply event_not_found, list_find_None, Forall_forall.
  exact Hnone.
Qed.

(** ** The table of risk rules *)

(** C6.  [calculateRisk] and [getWarningMessage] return the values of the
    table on the listed event types, and the default (0, and the general
    message) on every other string. *)
Theorem risk_rules_table :
  calculateRisk "tab_switch" = 15
  ∧ calculateRisk "no_face" = 20
  ∧ calculateRisk "multiple_faces" = 35
  ∧ calculateRisk "looking_away" = 10
  ∧ calculateRisk "voice_detected" = 25
  ∧ calculateRisk "fast_answering" = 5
  ∧ (∀ ev : string,
       ev ∉ ["tab_switch"; "no_face"; "multiple_faces"; "looking_away";
             "voice_detected"; "fast_answering"] →
       calculateRisk ev = 0)
  ∧ getWarningMessage "tab_switch" = "Warning: Please stay on the exam tab."
  ∧ getWarningMessage "no_face" = "Warning: No face detected in webcam."
  ∧ getWarningMessage "multiple_faces" = "Warning: Multiple faces detected!"
  ∧ getWarningMessage "looking_away"
    = "Warning: Please stay focused on the screen."
  ∧ getWarningMessage "voice_detected"
    = "Warning: Voice detected in the background."
  ∧ getWarningMessage "fast_answering" = "Warning: Suspicious activity detected."
  ∧ (∀ ev : string,
       ev ∉ ["tab_switch"; "no_face"; "multiple_faces"; "looking_away";
             "voice_detected"] →
       getWarningMessage ev = "Warning: Suspicious activity detected.").
Proof.
  split_and!; try reflexivity.
  - intros ev Hev. rewrite !not_elem_of_cons in Hev.
    unfold calculateRisk.
    repeat case_decide; try reflexivity; destruct_and!; done.
  - intros ev Hev. rewrite !not_elem_of_cons in Hev.
    unfold getWarningMessage.
    repeat case_decide; try reflexivity; destruct_and!; done.
Qed.

(** ** Reports *)

Lemma handle_logs db r :
  logs (db_after (handle db r)) = logs db ++ logged (response (handle db r)).
Proof.
  destruct r as [u now|u e now date|sid ev ts md now|sid]; cbn.
  - unfold login. destruct (list_find _ _) as [[??]|]; cbn; by rewrite app_nil_r.
  - by rewrite app_nil_r.
  - unfold event. destruct (list_find _ _) as [[??]|]; cbn.
    + destruct (score_event _ _ _); reflexivity.
    + by rewrite app_nil_r.
  - unfold report. destruct (list_find _ _) as [[??]|]; cbn; by rewrite app_nil_r.
Qed.

(** C7.  For a session id some stored session carries, the report holds the
    session that [find] returns, the log entries with this [sessionId] in
    the order of the log, and that session's [warnings] and [riskScore]; for
    any other id the answer is the 404 error; the store is returned as it
    was in both cases.  The log is in insertion order: a request only adds
    at its end, and only the entry of a processed event. *)
Theorem report_joins_session_and_logs db sid :
  (∀ s0, s0 ∈ examSessions db → ExamSession.id s0 = sid →
     ∃ i s,
       list_find (λ s, ExamSession.id s = sid) (examSessions db) = Some (i, s)
       ∧ ExamSession.id s = sid
       ∧ report db sid
         = mkOutcome db
             (ReportOk
                (mkReport s
                   (filter (λ l, LogEntry.sessionId l = sid) (logs db))
                   (ExamSession.warnings s) (ExamSession.riskScore s)))
             [])
  ∧ ((∀ s, s ∈ examSessions db → ExamSession.id s ≠ sid) →
     report db sid = mkOutcome db (NotFound "Session not found") [])
  ∧ (∀ r, logs (db_after (handle db r))
          = logs db ++ logged (response (handle db r))).
Proof.
  split_and!.
  - intros s0 Hin Hid.
    destruct (list_find_elem_of (λ s, ExamSession.id s = sid) _ s0 Hin Hid)
      as [[i s] Hfind].
    exists i, s. unfold report. rewrite Hfind.
    apply list_find_Some in Hfind as (_ & Hs & _). done.
  - intros Hnone. unfold report.
    assert (list_find (λ s, ExamSession.id s = sid) (examSessions db) = None)
      as -> by (by apply list_find_None, Forall_forall).
    reflexivity.
  - apply handle_logs.
Qed.

(** ** Login *)

Lemma handle_users db r : ∃ new, users (db_after (handle db r)) = users db ++ new.
Proof.
  destruct r as [u now|u e now date|sid ev ts md now|sid]; cbn.
  - unfold login. destruct (list_find _ _) as [[??]|]; cbn.
    + exists []. by rewrite app_nil_r.
    + by eexists.
  - exists []. by rewrite app_nil_r.
  - unfold event. destruct (list_find _ _) as [[??]|]; cbn.
    + destruct (score_event _ _ _). exists []. by rewrite app_nil_r.
    + exists []. by rewrite app_nil_r.
  - unfold report. destruct (list_find _ _) as [[??]|]; cbn;
      exists []; by rewrite app_nil_r.
Qed.

(** A user that [find] returns is still the one it returns after any
    requests. *)
Lemma serve_find_user username rs : ∀ db i user,
  list_find (λ u, User.username u = username) (users db) = Some (i, user) →
  list_find (λ u, User.username u = username) (users (serve db rs))
  = Some (i, user).
Proof.
  induction rs as [|r rs IH]; intros db i user Hfind; [done|].
  unfold serve. cbn [foldl]. fold (serve (db_after (handle db r)) rs).
  apply IH. destruct (handle_users db r) as [new ->].
  by apply list_find_app_l.
Qed.

Lemma login_found db username now i user :
  list_find (λ u, User.username u = username) (users db) = Some (i, user) →
  login db username now
  = mkOutcome db (LoginOk user ("fake-jwt-token-" +:+ User.id user)) [].
Proof. intros Hfind. unfold login. by rewrite Hfind. Qed.

(** C8.  A login answers with a user of the given username; when no stored
    user has that username it is a new record, pushed at the end of
    [users]; and a later login with the same username, after any requests
    in between, answers with that same user and leaves the store as it
    is. *)
Theorem login_find_or_create db username now1 rs now2 :
  ∃ user,
    response (login db username now1)
    = LoginOk user ("fake-jwt-token-" +:+ User.id user)
    ∧ User.username user = username
    ∧ ((∀ u, u ∈ users db → User.username u ≠ username) →
       user = User.mk (pretty now1) username User.active
       ∧ users (db_after (login db username now1)) = users db ++ [user])
    ∧ login (serve (db_after (login db username now1)) rs) username now2
      = mkOutcome (serve (db_after (login db username now1)) rs)
          (LoginOk user ("fake-jwt-token-" +:+ User.id user)) [].
Proof.
  destruct (list_find (λ u, User.username u = username) (users db))
    as [[i user]|] eqn:Hfind.
  - exists user. rewrite (login_found _ _ _ _ _ Hfind). cbn.
    apply list_find_Some in Hfind as Hspec. destruct Hspec as (Hi & Hname & _).
    split_and!; [done|done| |].
    + intros Hnone. apply list_elem_of_lookup_2 in Hi. by apply Hnone in Hi.
    + apply (login_found _ _ _ i), serve_find_user, Hfind.
  - exists (User.mk (pretty now1) username User.active).
    unfold login at 1 2 3. rewrite Hfind. cbn.
    split_and!; [done|done|done|].
    apply (login_found _ _ _ (length (users db))), serve_find_user.
    unfold login. rewrite Hfind. cbn.
    rewrite list_find_app_r by done. cbn.
    rewrite decide_True by done. cbn. repeat f_equal; lia.
Qed.

(** ** The payload of a warning *)

(** C10.  When an event with positive impact is processed, the [warning]
    emitted carries the [warnings] and [riskScore] of the session as
    stored after the event: the count after the increment and the score
    after the clamp. *)
Theorem warning_carries_updated_counts db sid ev ts md now i s :
  list_find (λ s, ExamSession.id s = sid) (examSessions db) = Some (i, s) →
  0 < calculateRisk ev →
  let o := event db sid ev ts md now in
  ∃ s',
    examSessions (db_after o) !! i = Some s'
    ∧ response o
      = EventOk (LogEntry.mk (pretty now) sid ev ts md (calculateRisk ev)) s'
    ∧ ExamSession.warnings s' = ExamSession.warnings s + 1
    ∧ ExamSession.riskScore s'
      = Z.min 100 (ExamSession.riskScore s + calculateRisk ev)
    ∧ warnings_in (emitted o)
      = [mkEmit sid
           (warning ev (getWarningMessage ev)
              (ExamSession.warnings s') (ExamSession.riskScore s'))].
Proof.
  intros Hfind Himp o. subst o. rewrite (event_found _ _ _ _ _ _ _ _ Hfind).
  cbn [db_after response emitted examSessions].
  apply list_find_Some in Hfind as (Hi & _ & _).
  exists (score_event s sid ev).1.
  rewrite list_lookup_insert_eq by (by eapply lookup_lt_Some).
  rewrite score_event_warnings_in. unfold warning_emit.
  rewrite score_event_warnings, !decide_True by done.
  split_and!; try reflexivity. apply score_event_riskScore.
Qed.

(** ** The scenario of the specification *)

(** C9, as the code has it.  On a fresh session the events [tab_switch],
    [looking_away], [multiple_faces], [fast_answering] give risk score and
    warnings 15 and 1, 25 and 2, 60 and 3, 65 and 4; the status is
    [high_risk] from the third event on; each event emits a [warning], the
    third and the fourth also emit [high_risk]; and the report has
    [finalRiskScore] 65, [totalWarnings] 4, status [high_risk] and 4 log
    entries. *)
Theorem scenario_outcome :
  summary <$> session_after scenario 1 = Some (0, 0, ExamSession.ongoing)
  ∧ summary <$> session_after scenario 2 = Some (15, 1, ExamSession.ongoing)
  ∧ summary <$> session_after scenario 3 = Some (25, 2, ExamSession.ongoing)
  ∧ summary <$> session_after scenario 4 = Some (60, 3, ExamSession.high_risk)
  ∧ summary <$> session_after scenario 5 = Some (65, 4, ExamSession.high_risk)
  ∧ emitted_at scenario 1
    = [mkEmit "1000"
         (warning "tab_switch" "Warning: Please stay on the exam tab." 1 15)]
  ∧ emitted_at scenario 2
    = [mkEmit "1000"
         (warning "looking_away" "Warning: Please stay focused on the screen."
            2 25)]
  ∧ emitted_at scenario 3
    = [mkEmit "1000"
         (warning "multiple_faces" "Warning: Multiple faces detected!" 3 60);
       high_risk_emit "1000"]
  ∧ emitted_at scenario 4
    = [mkEmit "1000"
         (warning "fast_answering" "Warning: Suspicious activity detected."
            4 65);
       high_risk_emit "1000"]
  ∧ ∃ r,
      response_at scenario 5 = Some (ReportOk r)
      ∧ finalRiskScore r = 65
      ∧ totalWarnings r = 4
      ∧ ExamSession.status (session r) = ExamSession.high_risk
      ∧ LogEntry.eventType <$> events r
        = ["tab_switch"; "looking_away"; "multiple_faces"; "fast_answering"]
      ∧ length (events r) = 4%nat.
Proof.
  split_and!; try (vm_compute; reflexivity).
  eexists. split_and!; vm_compute; reflexivity.
Qed.

(** C9 as stated fails at its fourth event: [fast_answering] has impact 5,
    so it is a fourth warning, and [high_risk] is emitted once more. *)
Lemma scenario_fourth_event_is_a_warning :
  ExamSession.warnings <$> session_after scenario 5 = Some 4
  ∧ ExamSession.warnings <$> session_after scenario 5 ≠ Some 3
  ∧ high_risks_in (emitted_at scenario 4) = [high_risk_emit "1000"]
  ∧ high_risks_in (emitted_at scenario 4) ≠ [].
Proof. vm_compute. done. Qed.

(** ** The theorems at concrete inputs *)

(** After the four events of the scenario the risk score is 65. *)
Lemma riskScore_clamped_sum_scenario :
  let db := serve MOCK_DB (take 1 scenario) in
  let s := ExamSession.mk "1000" "u1" "exam1" 1000 0 0 ExamSession.ongoing in
  examSessions db !! 0%nat = Some s
  ∧ fresh s
  ∧ ∃ s1,
      examSessions (serve db (drop 1 (take 5 scenario))) !! 0%nat = Some s1
      ∧ ExamSession.riskScore s1 = 65.
Proof.
  intros db s.
  assert (examSessions db !! 0%nat = Some s) as Hi by (vm_compute; reflexivity).
  assert (fresh s) as Hs by (vm_compute; auto).
  split; [exact Hi|]. split; [exact Hs|].
  destruct (riskScore_clamped_sum db 0 s (drop 1 (take 5 scenario)) Hi Hs)
    as (s1 & H1 & H2 & _).
  exists s1. split; [exact H1|]. rewrite H2. vm_compute. reflexivity.
Defined.

(** After the four events of the scenario the session has 4 warnings. *)
Lemma warnings_count_risky_events_scenario :
  let db := serve MOCK_DB (take 1 scenario) in
  let s := ExamSession.mk "1000" "u1" "exam1" 1000 0 0 ExamSession.ongoing in
  examSessions db !! 0%nat = Some s
  ∧ fresh s
  ∧ ∃ s1,
      examSessions (serve db (drop 1 (take 5 scenario))) !! 0%nat = Some s1
      ∧ ExamSession.warnings s1 = 4.
Proof.
  intros db s.
  assert (examSessions db !! 0%nat = Some s) as Hi by (vm_compute; reflexivity).
  assert (fresh s) as Hs by (vm_compute; auto).
  split; [exact Hi|]. split; [exact Hs|].
  destruct (warnings_count_risky_events db 0 s (drop 1 (take 5 scenario)) Hi Hs)
    as (s1 & H1 & H2 & _).
  exists s1. split; [exact H1|]. rewrite H2. vm_compute. reflexivity.
Defined.

(** After the first three events of the scenario the session has 3 warnings
    and is [high_risk]. *)
Lemma status_rises_at_three_warnings_scenario :
  ∃ s1,
    examSessions (serve (db_after (start MOCK_DB "u1" "exam1" 1000 1000))
                    (drop 1 (take 4 scenario))) !! 0%nat = Some s1
    ∧ ExamSession.warnings s1 = 3
    ∧ ExamSession.status s1 = ExamSession.high_risk.
Proof.
  destruct (status_rises_at_three_warnings MOCK_DB "u1" "exam1" 1000 1000
              (drop 1 (take 4 scenario)))
    as (s0 & s1 & _ & _ & H1 & Hw & Hst & _).
  exists s1. split; [exact H1|].
  assert (ExamSession.warnings s1 = 3) as Hw3
    by (rewrite Hw; vm_compute; reflexivity).
  split; [exact Hw3|]. apply Hst. rewrite Hw3. lia.
Defined.

(** With three warnings counted, an event of unknown type still emits
    [high_risk]. *)
Lemma high_risk_emitted_from_threshold_on_blink :
  let db := serve MOCK_DB (take 1 past_threshold) in
  let s := ExamSession.mk "1000" "u1" "exam1" 1000 0 0 ExamSession.ongoing in
  let rs := drop 1 (take 4 past_threshold) in
  examSessions db !! 0%nat = Some s
  ∧ fresh s
  ∧ target (serve db rs) (Event "1000" "blink" "t4" "{}" 1004)
    = Some (0%nat, "blink")
  ∧ high_risks_in (emitted (event (serve db rs) "1000" "blink" "t4" "{}" 1004))
    = [high_risk_emit "1000"].
Proof.
  intros db s rs.
  assert (examSessions db !! 0%nat = Some s) as Hi by (vm_compute; reflexivity).
  assert (fresh s) as Hs by (vm_compute; auto).
  assert (target (serve db rs) (Event "1000" "blink" "t4" "{}" 1004)
          = Some (0%nat, "blink")) as Ht by (vm_compute; reflexivity).
  split_and!; [exact Hi|exact Hs|exact Ht|].
  rewrite (high_risk_emitted_from_threshold_on db 0 s rs _ _ _ _ _ Hi Hs Ht).
  vm_compute. reflexivity.
Defined.

(** An event for the id 999, which no session of the scenario carries. *)
Lemma event_unknown_session_leaves_store_scenario :
  let db := serve MOCK_DB (take 3 scenario) in
  (∀ s, s ∈ examSessions db → ExamSession.id s ≠ "999")
  ∧ event db "999" "tab_switch" "t" "{}" 1009
    = mkOutcome db (NotFound "Session not found") [].
Proof.
  intros db.
  assert (∀ s, s ∈ examSessions db → ExamSession.id s ≠ "999") as Hnone.
  { apply Forall_forall. vm_compute. repeat constructor. discriminate. }
  split; [exact Hnone|].
  apply (event_unknown_session_leaves_store db "999" "tab_switch" "t" "{}" 1009
           Hnone).
Defined.

(** The label [blink] is outside the table. *)
Lemma risk_rules_table_blink :
  ("blink" ∉ ["tab_switch"; "no_face"; "multiple_faces"; "looking_away";
              "voice_detected"; "fast_answering"])
  ∧ calculateRisk "blink" = 0
  ∧ getWarningMessage "blink" = "Warning: Suspicious activity detected.".
Proof.
  assert (∀ l : list string, Forall (λ x, "blink" ≠ x) l → "blink" ∉ l) as Hout.
  { intros l Hl Hin. eapply Forall_forall in Hl; [|exact Hin]. by apply Hl. }
  destruct risk_rules_table
    as (_ & _ & _ & _ & _ & _ & Hrisk & _ & _ & _ & _ & _ & _ & Hmsg).
  split_and!.
  - apply Hout. repeat constructor; discriminate.
  - apply Hrisk, Hout. repeat constructor; discriminate.
  - apply Hmsg, Hout. repeat constructor; discriminate.
Defined.

(** The report of the scenario, and the report for an id nobody carries. *)
Lemma report_joins_session_and_logs_scenario :
  let db := serve MOCK_DB (take 5 scenario) in
  (∃ i s,
     examSessions db !! i = Some s
     ∧ report db "1000"
       = mkOutcome db
           (ReportOk
              (mkReport s
                 (filter (λ l, LogEntry.sessionId l = "1000") (logs db))
                 (ExamSession.warnings s) (ExamSession.riskScore s)))
           [])
  ∧ report db "999" = mkOutcome db (NotFound "Session not found") [].
Proof.
  intros db.
  destruct (report_joins_session_and_logs db "1000") as (Hknown & _ & _).
  destruct (report_joins_session_and_logs db "999") as (_ & Hunknown & _).
  split.
  - destruct (Hknown (ExamSession.mk "1000" "u1" "exam1" 1000 65 4
                        ExamSession.high_risk))
      as (i & s & Hfind & _ & Hreport).
    + vm_compute. constructor.
    + reflexivity.
    + exists i, s. split; [|exact Hreport].
      apply list_find_Some in Hfind as (Hi & _). exact Hi.
  - apply Hunknown. apply Forall_forall. vm_compute.
    repeat constructor. discriminate.
Defined.

(** Two logins of [alice], with another login and an exam start in between. *)
Lemma login_find_or_create_alice :
  ∃ user,
    response (login MOCK_DB "alice" 7) = LoginOk user "fake-jwt-token-7"
    ∧ User.id user = "7"
    ∧ response
        (login (serve (db_after (login MOCK_DB "alice" 7))
                  [Login "bob" 8; Start "7" "exam1" 9 9])
           "alice" 10)
      = LoginOk user "fake-jwt-token-7".
Proof.
  destruct (login_find_or_create MOCK_DB "alice" 7
              [Login "bob" 8; Start "7" "exam1" 9 9] 10)
    as (user & H1 & _ & Hnew & H2).
  destruct Hnew as [-> _].
  { intros u Hu. vm_compute in Hu. by apply elem_of_nil in Hu. }
  exists (User.mk (pretty 7) "alice" User.active).
  split_and!; [exact H1|vm_compute; reflexivity|].
  rewrite H2. reflexivity.
Defined.

(** The second event of the scenario warns with 2 warnings and score 25. *)
Lemma warning_carries_updated_counts_scenario :
  let db := serve MOCK_DB (take 2 scenario) in
  let s := ExamSession.mk "1000" "u1" "exam1" 1000 15 1 ExamSession.ongoing in
  list_find (λ s, ExamSession.id s = "1000") (examSessions db) = Some (0%nat, s)
  ∧ 0 < calculateRisk "looking_away"
  ∧ warnings_in (emitted (event db "1000" "looking_away" "t2" "{}" 1002))
    = [mkEmit "1000"
         (warning "looking_away" "Warning: Please stay focused on the screen."
            2 25)].
Proof.
  intros db s.
  assert (list_find (λ s, ExamSession.id s = "1000") (examSessions db)
          = Some (0%nat, s)) as Hfind by (vm_compute; reflexivity).
  assert (0 < calculateRisk "looking_away") as Himp by (vm_compute; reflexivity).
  split_and!; [exact Hfind|exact Himp|].
  destruct (warning_carries_updated_counts db "1000" "looking_away" "t2" "{}"
              1002 0 s Hfind Himp)
    as (s' & _ & _ & Hw & Hr & Hout).
  rewrite Hout, Hw, Hr. vm_compute. reflexivity.
Defined.

(** ** Further properties of the handlers *)

(** *** [find] after a field assignment *)

Section FindInsert.
Context {A : Type} (P : A → Prop) `{!∀ x, Decision (P x)}.

Lemma list_find_cons (a : A) l :
  list_find P (a :: l)
  = if decide (P a) then Some (0%nat, a) else prod_map S id <$> list_find P l.
Proof. reflexivity. Qed.

Lemma list_find_insert_hit (l : list A) i x y :
  list_find P l = Some (i, x) → P y → list_find P (<[i:=y]> l) = Some (i, y).
Proof.
  revert i. induction l as [|a l IH]; intros i Hfind Hy; [done|].
  rewrite list_find_cons in Hfind. destruct (decide (P a)) as [Ha|Ha].
  - injection Hfind as <- <-. cbn. by rewrite decide_True.
  - destruct (list_find P l) as [[j z]|] eqn:Hl; [|done].
    injection Hfind as <- <-.
    change (<[S j:=y]> (a :: l)) with (a :: <[j:=y]> l).
    rewrite list_find_cons, decide_False by done.
    by rewrite (IH j eq_refl Hy).
Qed.

Lemma list_find_insert_miss (l : list A) i x y :
  l !! i = Some x → ¬ P x → ¬ P y → list_find P (<[i:=y]> l) = list_find P l.
Proof.
  revert i. induction l as [|a l IH]; intros i Hi Hx Hy; [done|].
  destruct i as [|i].
  - injection Hi as ->. 
    change (<[0%nat:=y]> (x :: l)) with (y :: l).
    rewrite !list_find_cons. by rewrite !decide_False.
  - change (<[S i:=y]> (a :: l)) with (a :: <[i:=y]> l).
    rewrite !list_find_cons.
    destruct (decide (P a)); [done|]. by rewrite (IH i Hi Hx Hy).
Qed.
End FindInsert.

(** *** Impacts *)

Lemma calculateRisk_positive ev :
  0 < calculateRisk ev → 5 ≤ calculateRisk ev ≤ 35.
Proof. unfold calculateRisk. repeat case_decide; lia. Qed.

Lemma total_impact_snoc ls l :
  total_impact (ls ++ [l]) = total_impact ls + LogEntry.impact l.
Proof.
  unfold total_impact. induction ls as [|a ls IH]; cbn; [lia|].
  rewrite IH. lia.
Qed.

Lemma warning_entries_snoc ls l :
  warning_entries (ls ++ [l])
  = if decide (0 < LogEntry.impact l)
    then warning_entries ls + 1 else warning_entries ls.
Proof.
  unfold warning_entries. rewrite filter_app, length_app.
  rewrite filter_cons, filter_nil. case_decide; cbn [length]; lia.
Qed.

(** *** What every stored session satisfies *)

Lemma score_event_ok s sid ev :
  session_ok s → session_ok (score_event s sid ev).1.
Proof.
  intros (Hw & Hlo & Hhi & Hst). unfold session_ok.
  rewrite score_event_status, score_event_riskScore, score_event_warnings.
  pose proof (calculateRisk_nonneg ev) as Hnn.
  pose proof (calculateRisk_positive ev) as Hpos.
  assert (ExamSession.status s = ExamSession.high_risk
          → 3 ≤ ExamSession.warnings s) as Hst1 by apply Hst.
  destruct (decide (0 < calculateRisk ev));
    (split_and!; [lia|lia|lia|]);
    case_decide; split; intros Hx; try done; try lia;
    apply Hst1 in Hx; lia.
Qed.

Lemma fresh_ok s : fresh s → session_ok s.
Proof.
  intros (Hr & Hw & Hst). unfold session_ok. rewrite Hr, Hw, Hst.
  split_and!; try lia. split; [done|lia].
Qed.

Lemma handle_sessions_ok db r :
  Forall session_ok (examSessions db) →
  Forall session_ok (examSessions (db_after (handle db r))).
Proof.
  intros Hok. destruct r as [u now|u e now date|sid ev ts md now|sid]; cbn.
  - unfold login. by destruct (list_find _ _) as [[??]|].
  - apply Forall_app. split; [done|]. apply Forall_singleton, fresh_ok. done.
  - destruct (list_find (λ s, ExamSession.id s = sid) (examSessions db))
      as [[i s]|] eqn:Hfind.
    + rewrite (event_found _ _ _ _ _ _ _ _ Hfind). cbn.
      apply Forall_insert; [done|]. apply score_event_ok.
      apply list_find_Some in Hfind as (Hi & _).
      by eapply Forall_lookup_1.
    + by rewrite (event_not_found _ _ _ _ _ _ Hfind).
  - unfold report. by destruct (list_find _ _) as [[??]|].
Qed.

Lemma serve_sessions_ok rs : ∀ db,
  Forall session_ok (examSessions db) →
  Forall session_ok (examSessions (serve db rs)).
Proof.
  induction rs as [|r rs IH]; intros db Hok; [done|].
  unfold serve. cbn [foldl]. fold (serve (db_after (handle db r)) rs).
  by apply IH, handle_sessions_ok.
Qed.

(** *** Sessions and their log entries *)

Lemma handle_agrees db r :
  (∀ sid, agrees db sid) → ∀ sid, agrees (db_after (handle db r)) sid.
Proof.
  intros Hdb sid. specialize (Hdb sid) as Hsid.
  destruct r as [u now|u e now date|sid0 ev ts md now|sid0]; cbn.
  - unfold login. by destruct (list_find _ _) as [[??]|].
  - unfold agrees, logs_of in *. cbn.
    destruct (list_find (λ s, ExamSession.id s = sid) (examSessions db))
      as [[i s]|] eqn:Hfind.
    + by rewrite (list_find_app_l _ _ _ _ _ Hfind).
    + rewrite list_find_app_r by done. cbn.
      case_decide; cbn; [|done]. rewrite Hsid. done.
  - destruct (list_find (λ s, ExamSession.id s = sid0) (examSessions db))
      as [[i s]|] eqn:Hfind0.
    + rewrite (event_found _ _ _ _ _ _ _ _ Hfind0).
      apply list_find_Some in Hfind0 as Hspec. destruct Hspec as (Hi & Hid & _).
      unfold agrees, logs_of in *. cbn [examSessions logs db_after].
      rewrite filter_app, filter_cons, filter_nil. cbn [LogEntry.sessionId].
      destruct (decide (sid0 = sid)) as [->|Hne].
      * rewrite Hfind0 in Hsid. destruct Hsid as [Hr Hw].
        rewrite (list_find_insert_hit _ _ _ _ _ Hfind0)
          by (by rewrite score_event_id).
        rewrite score_event_riskScore, score_event_warnings.
        rewrite total_impact_snoc, warning_entries_snoc. cbn [LogEntry.impact].
        rewrite Hr, Hw. pose proof (calculateRisk_nonneg ev).
        split; [lia|done].
      * rewrite (list_find_insert_miss _ _ _ _ _ Hi), app_nil_r;
          [done|congruence|rewrite score_event_id; congruence].
    + by rewrite (event_not_found _ _ _ _ _ _ Hfind0).
  - unfold report. by destruct (list_find _ _) as [[??]|].
Qed.

Lemma serve_agrees rs : ∀ db,
  (∀ sid, agrees db sid) → ∀ sid, agrees (serve db rs) sid.
Proof.
  induction rs as [|r rs IH]; intros db Hdb; [done|].
  unfold serve. cbn [foldl]. fold (serve (db_after (handle db r)) rs).
  by apply IH, handle_agrees.
Qed.

Lemma MOCK_DB_agrees sid : agrees MOCK_DB sid.
Proof. reflexivity. Qed.

Lemma handle_logs_impact db r :
  Forall (λ l, LogEntry.impact l = calculateRisk (LogEntry.eventType l)) (logs db) →
  Forall (λ l, LogEntry.impact l = calculateRisk (LogEntry.eventType l))
    (logs (db_after (handle db r))).
Proof.
  intros Hok. rewrite handle_logs. apply Forall_app. split; [done|].
  destruct r as [u now|u e now date|sid ev ts md now|sid]; cbn.
  - unfold login. destruct (list_find _ _) as [[??]|]; constructor.
  - constructor.
  - unfold event. destruct (list_find _ _) as [[??]|]; cbn; [|constructor].
    destruct (score_event _ _ _). cbn. by repeat constructor.
  - unfold report. destruct (list_find _ _) as [[??]|]; constructor.
Qed.

Lemma serve_logs_impact rs : ∀ db,
  Forall (λ l, LogEntry.impact l = calculateRisk (LogEntry.eventType l)) (logs db) →
  Forall (λ l, LogEntry.impact l = calculateRisk (LogEntry.eventType l))
    (logs (serve db rs)).
Proof.
  induction rs as [|r rs IH]; intros db Hok; [done|].
  unfold serve. cbn [foldl]. fold (serve (db_after (handle db r)) rs).
  by apply IH, handle_logs_impact.
Qed.

(** *** Users *)

Lemma handle_usernames db r :
  NoDup (User.username <$> users db) →
  NoDup (User.username <$> users (db_after (handle db r))).
Proof.
  intros Hnd. destruct r as [u now|u e now date|sid ev ts md now|sid]; cbn.
  - unfold login.
    destruct (list_find (λ x, User.username x = u) (users db))
      as [[??]|] eqn:Hfind; cbn; [done|].
    rewrite fmap_app. apply NoDup_app. split_and!; [done| |apply NoDup_singleton].
    intros name Hin Hnew. cbn in Hnew. apply list_elem_of_singleton in Hnew as ->.
    apply list_elem_of_fmap in Hin as (x & Hx & Hin).
    apply list_find_None in Hfind. eapply Forall_forall in Hfind; [|exact Hin].
    by apply Hfind.
  - done.
  - unfold event. destruct (list_find _ _) as [[??]|]; cbn; [|done].
    by destruct (score_event _ _ _).
  - unfold report. by destruct (list_find _ _) as [[??]|].
Qed.

(** *** Session ids *)

Lemma handle_session_ids db r :
  ExamSession.id <$> examSessions (db_after (handle db r))
  = (ExamSession.id <$> examSessions db) ++ (pretty <$> started [r]).
Proof.
  destruct r as [u now|u e now date|sid ev ts md now|sid]; cbn.
  - unfold login. destruct (list_find _ _) as [[??]|]; cbn; by rewrite app_nil_r.
  - by rewrite fmap_app.
  - rewrite app_nil_r.
    destruct (list_find (λ s, ExamSession.id s = sid) (examSessions db))
      as [[i s]|] eqn:Hfind.
    + rewrite (event_found _ _ _ _ _ _ _ _ Hfind). cbn.
      rewrite list_fmap_insert, score_event_id. apply list_insert_id.
      rewrite list_lookup_fmap.
      apply list_find_Some in Hfind as (-> & _). done.
    + by rewrite (event_not_found _ _ _ _ _ _ Hfind).
  - unfold report. destruct (list_find _ _) as [[??]|]; cbn; by rewrite app_nil_r.
Qed.

Lemma started_cons r rs : started (r :: rs) = started [r] ++ started rs.
Proof. unfold started. cbn. by destruct r. Qed.

Lemma serve_session_ids rs : ∀ db,
  ExamSession.id <$> examSessions (serve db rs)
  = (ExamSession.id <$> examSessions db) ++ (pretty <$> started rs).
Proof.
  induction rs as [|r rs IH]; intros db; [by rewrite app_nil_r|].
  unfold serve. cbn [foldl]. fold (serve (db_after (handle db r)) rs).
  rewrite IH, handle_session_ids, (started_cons r rs), fmap_app.
  by rewrite app_assoc.
Qed.

(** *** Stores reached from the empty one *)

(** X1.  In a store reached from the empty one every session has a
    [riskScore] between 0 and 100 and a non-negative [warnings]; its status
    is [high_risk] exactly when [warnings] is 3 or more; its score lies
    between [min 100 (5 * warnings)] and [35 * warnings], so it is 0 exactly
    when there are no warnings, and 100 once there are 20. *)
Theorem stored_sessions_invariant rs s :
  s ∈ examSessions (serve MOCK_DB rs) →
  0 ≤ ExamSession.warnings s
  ∧ 0 ≤ ExamSession.riskScore s ≤ 100
  ∧ (ExamSession.status s = ExamSession.high_risk ↔ 3 ≤ ExamSession.warnings s)
  ∧ Z.min 100 (5 * ExamSession.warnings s) ≤ ExamSession.riskScore s
  ∧ ExamSession.riskScore s ≤ 35 * ExamSession.warnings s
  ∧ (ExamSession.riskScore s = 0 ↔ ExamSession.warnings s = 0)
  ∧ (20 ≤ ExamSession.warnings s → ExamSession.riskScore s = 100).
Proof.
  intros Hin.
  pose proof (serve_sessions_ok rs MOCK_DB (Forall_nil_2 _)) as Hall.
  eapply Forall_forall in Hall; [|exact Hin].
  destruct Hall as (Hw & Hlo & Hhi & Hst).
  split_and!; try done; try lia.
Qed.

(** X2.  In a store reached from the empty one every log entry carries the
    impact that [calculateRisk] gives its event type, and its [sessionId]
    is the id of a stored session: [find] succeeds on it. *)
Theorem log_entries_name_stored_sessions rs l :
  l ∈ logs (serve MOCK_DB rs) →
  LogEntry.impact l = calculateRisk (LogEntry.eventType l)
  ∧ ∃ i s,
      list_find (λ s, ExamSession.id s = LogEntry.sessionId l)
        (examSessions (serve MOCK_DB rs)) = Some (i, s).
Proof.
  intros Hin. split.
  - pose proof (serve_logs_impact rs MOCK_DB (Forall_nil_2 _)) as Hall.
    eapply Forall_forall in Hall; [exact Hall|exact Hin].
  - pose proof (serve_agrees rs MOCK_DB MOCK_DB_agrees (LogEntry.sessionId l))
      as Hag.
    unfold agrees in Hag.
    destruct (list_find _ _) as [[i s]|]; [by exists i, s|].
    assert (l ∈ logs_of (serve MOCK_DB rs) (LogEntry.sessionId l)) as Hl
      by (by apply list_elem_of_filter).
    rewrite Hag in Hl. by apply elem_of_nil in Hl.
Qed.

(** X3.  In a store reached from the empty one the totals of a report are
    those of the log entries it lists: [totalWarnings] is the number of
    listed entries with positive impact, and [finalRiskScore] is [min 100]
    of the sum of the listed impacts. *)
Theorem report_totals_match_events rs sid r :
  response (report (serve MOCK_DB rs) sid) = ReportOk r →
  totalWarnings r = warning_entries (events r)
  ∧ finalRiskScore r = Z.min 100 (total_impact (events r)).
Proof.
  pose proof (serve_agrees rs MOCK_DB MOCK_DB_agrees sid) as Hag.
  unfold agrees, logs_of in Hag. unfold report.
  destruct (list_find _ _) as [[i s]|]; cbn; [|done].
  intros [= <-]. cbn. destruct Hag as [Hr Hw]. done.
Qed.

(** X4.  In a store reached from the empty one no two user records have the
    same username. *)
Theorem usernames_unique rs :
  NoDup (User.username <$> users (serve MOCK_DB rs)).
Proof.
  assert (∀ rs db, NoDup (User.username <$> users db) →
          NoDup (User.username <$> users (serve db rs))) as Hserve.
  { clear rs. induction rs as [|r rs IH]; intros db Hnd; [done|].
    unfold serve. cbn [foldl]. fold (serve (db_after (handle db r)) rs).
    by apply IH, handle_usernames. }
  apply Hserve. constructor.
Qed.

(** *** Stores that only grow *)

Lemma serve_users_prefix rs : ∀ db, users db `prefix_of` users (serve db rs).
Proof.
  induction rs as [|r rs IH]; intros db; [done|].
  unfold serve. cbn [foldl]. fold (serve (db_after (handle db r)) rs).
  etrans; [|apply IH]. destruct (handle_users db r) as [new ->].
  by apply prefix_app_r.
Qed.

Lemma serve_logs_prefix rs : ∀ db, logs db `prefix_of` logs (serve db rs).
Proof.
  induction rs as [|r rs IH]; intros db; [done|].
  unfold serve. cbn [foldl]. fold (serve (db_after (handle db r)) rs).
  etrans; [|apply IH]. rewrite handle_logs. by apply prefix_app_r.
Qed.

(** X5.  Nothing is ever removed or reordered: after any requests the
    users and the log of before are a prefix of the users and the log of
    after, and the session at each index is still a session with the same
    id, user, exam and start time. *)
Theorem stores_only_grow db rs :
  users db `prefix_of` users (serve db rs)
  ∧ logs db `prefix_of` logs (serve db rs)
  ∧ Forall2
      (λ s s', ExamSession.id s' = ExamSession.id s
               ∧ ExamSession.userId s' = ExamSession.userId s
               ∧ ExamSession.examId s' = ExamSession.examId s
               ∧ ExamSession.startTime s' = ExamSession.startTime s)
      (examSessions db)
      (take (length (examSessions db)) (examSessions (serve db rs))).
Proof.
  split_and!; [apply serve_users_prefix|apply serve_logs_prefix|].
  apply Forall2_same_length_lookup_2.
  - rewrite length_take, <- (length_fmap ExamSession.id (examSessions (serve _ _))).
    rewrite serve_session_ids, length_app, length_fmap. lia.
  - intros i s s' Hi Hi'.
    apply lookup_take_Some in Hi' as [Hi' _].
    rewrite (serve_session rs db i s Hi) in Hi'. injection Hi' as <-.
    clear Hi. generalize (events_on i db rs). intros evs.
    induction evs as [|ev evs IH] using rev_ind; [done|].
    rewrite scored_snoc. unfold score_event.
    repeat case_decide; cbn; exact IH.
Qed.

(** X6.  The ids of the stored sessions are, in order, the decimal clock
    readings of the start requests served: one session per start request,
    whatever else was served in between. *)
Theorem session_ids_are_start_times rs :
  ExamSession.id <$> examSessions (serve MOCK_DB rs) = pretty <$> started rs.
Proof. apply (serve_session_ids rs MOCK_DB). Qed.

(** *** Sessions that share an id *)

Lemma target_not_shadowed db r i j si sj ev :
  (i < j)%nat →
  examSessions db !! i = Some si →
  examSessions db !! j = Some sj →
  ExamSession.id si = ExamSession.id sj →
  target db r ≠ Some (j, ev).
Proof.
  intros Hlt Hi Hj Hid. destruct r as [| |sid ev' ts md now|]; cbn; try done.
  destruct (list_find _ _) as [[k sk]|] eqn:Hfind; [|done].
  intros [= -> ->]. apply list_find_Some in Hfind as (Hk & Hsid & Hleast).
  assert (sk = sj) as -> by congruence.
  apply (Hleast i si Hi Hlt). congruence.
Qed.

(** X7.  When two stored sessions carry the same id, the later one is out
    of reach: whatever requests are served, it stays exactly as it is. *)
Theorem shadowed_session_never_changes rs : ∀ db i j si sj,
  (i < j)%nat →
  examSessions db !! i = Some si →
  examSessions db !! j = Some sj →
  ExamSession.id si = ExamSession.id sj →
  examSessions (serve db rs) !! j = Some sj.
Proof.
  induction rs as [|r rs IH]; intros db i j si sj Hlt Hi Hj Hid; [done|].
  unfold serve. cbn [foldl]. fold (serve (db_after (handle db r)) rs).
  pose proof (handle_session db r i si Hi) as Hi'.
  pose proof (handle_session db r j sj Hj) as Hj'.
  assert (examSessions (db_after (handle db r)) !! j = Some sj) as Hj''.
  { rewrite Hj'. f_equal.
    destruct (target db r) as [[k ev]|] eqn:Ht; [|done].
    case_decide as Hk; [|done]. subst k.
    by destruct (target_not_shadowed db r i j si sj ev). }
  eapply (IH _ i j _ sj Hlt Hi' Hj'').
  destruct (target db r) as [[k ev]|]; [|done].
  destruct (decide (k = i)); [|done]. by rewrite score_event_id.
Qed.


(** *** What one event touches *)

Lemma find_after_other_event db sid0 ev ts md now sid :
  sid ≠ sid0 →
  list_find (λ s, ExamSession.id s = sid)
    (examSessions (db_after (event db sid0 ev ts md now)))
  = list_find (λ s, ExamSession.id s = sid) (examSessions db).
Proof.
  intros Hne.
  destruct (list_find (λ s, ExamSession.id s = sid0) (examSessions db))
    as [[i s]|] eqn:Hfind.
  - rewrite (event_found _ _ _ _ _ _ _ _ Hfind). cbn.
    apply list_find_Some in Hfind as (Hi & Hid & _).
    apply (list_find_insert_miss _ _ _ _ _ Hi); [congruence|].
    rewrite score_event_id. congruence.
  - by rewrite (event_not_found _ _ _ _ _ _ Hfind).
Qed.


Lemma score_event_zero s sid ev :
  session_ok s → calculateRisk ev = 0 → (score_event s sid ev).1 = s.
Proof.
  intros (Hw & Hlo & Hhi & Hst) Himp. unfold score_event. rewrite Himp.
  rewrite decide_False by lia. destruct s as [i u e t r w st]. cbn in *.
  replace (100 `min` (r + 0)) with r by lia.
  case_decide as H3; cbn; [|done].
  apply Hst in H3. by rewrite H3.
Qed.

(** X10.  In a store reached from the empty one, an event whose type has
    impact 0 changes no session and no user and emits no [warning]; when
    its session id is known the event is still logged, with impact 0. *)
Theorem zero_impact_event_only_logs rs sid ev ts md now :
  calculateRisk ev = 0 →
  users (db_after (event (serve MOCK_DB rs) sid ev ts md now))
  = users (serve MOCK_DB rs)
  ∧ examSessions (db_after (event (serve MOCK_DB rs) sid ev ts md now))
    = examSessions (serve MOCK_DB rs)
  ∧ warnings_in (emitted (event (serve MOCK_DB rs) sid ev ts md now)) = []
  ∧ (sid ∈ ExamSession.id <$> examSessions (serve MOCK_DB rs) →
     logs (db_after (event (serve MOCK_DB rs) sid ev ts md now))
     = logs (serve MOCK_DB rs) ++ [LogEntry.mk (pretty now) sid ev ts md 0]).
Proof.
  intros Himp.
  pose proof (serve_sessions_ok rs MOCK_DB (Forall_nil_2 _)) as Hall.
  set (db := serve MOCK_DB rs) in *.
  destruct (list_find (λ s, ExamSession.id s = sid) (examSessions db))
    as [[i s]|] eqn:Hfind.
  - rewrite (event_found _ _ _ _ _ _ _ _ Hfind). cbn.
    apply list_find_Some in Hfind as (Hi & _).
    rewrite score_event_warnings_in, Himp, decide_False by lia.
    rewrite score_event_zero by (done || by eapply Forall_lookup_1).
    by rewrite list_insert_id.
  - rewrite (event_not_found _ _ _ _ _ _ Hfind). cbn.
    split_and!; try done.
    intros Hin. apply list_elem_of_fmap in Hin as (s & -> & Hin).
    apply list_find_None in Hfind. eapply Forall_forall in Hfind; [|exact Hin].
    done.
Qed.

(** X11.  In a store reached from the empty one, an event emits [high_risk]
    exactly when the session in its response has status [high_risk], and
    emits none exactly when that status is [ongoing]. *)
Theorem high_risk_emitted_iff_status rs sid ev ts md now l s' :
  response (event (serve MOCK_DB rs) sid ev ts md now) = EventOk l s' →
  (high_risks_in (emitted (event (serve MOCK_DB rs) sid ev ts md now))
   = [high_risk_emit sid]
   ↔ ExamSession.status s' = ExamSession.high_risk)
  ∧ (high_risks_in (emitted (event (serve MOCK_DB rs) sid ev ts md now)) = []
     ↔ ExamSession.status s' = ExamSession.ongoing).
Proof.
  pose proof (serve_sessions_ok rs MOCK_DB (Forall_nil_2 _)) as Hall.
  set (db := serve MOCK_DB rs) in *.
  destruct (list_find (λ s, ExamSession.id s = sid) (examSessions db))
    as [[i s]|] eqn:Hfind.
  - rewrite (event_found _ _ _ _ _ _ _ _ Hfind). cbn. intros [= <- <-].
    apply list_find_Some in Hfind as (Hi & _).
    assert (session_ok (score_event s sid ev).1) as (_ & _ & _ & Hst)
      by (apply score_event_ok; by eapply Forall_lookup_1).
    rewrite score_event_high_risks_in.
    assert (ExamSession.status (score_event s sid ev).1
            = if decide (3 ≤ ExamSession.warnings (score_event s sid ev).1)
              then ExamSession.high_risk else ExamSession.ongoing) as ->.
    { case_decide as H3; [by apply Hst|].
      destruct (ExamSession.status _); [done|]. destruct H3. by apply Hst. }
    case_decide; split; split; intros Hx; done.
  - by rewrite (event_not_found _ _ _ _ _ _ Hfind).
Qed.

(** *** Where emissions go *)



(** *** Events of different sessions *)

(** X13.  Two events with different session ids do not affect each other:
    served in either order they leave the same sessions and users, and each
    emits what it emits when served first. *)
Theorem events_of_different_sessions_commute
    db sid1 ev1 ts1 md1 now1 sid2 ev2 ts2 md2 now2 :
  sid1 ≠ sid2 →
  let db1 := db_after (event db sid1 ev1 ts1 md1 now1) in
  let db2 := db_after (event db sid2 ev2 ts2 md2 now2) in
  examSessions (db_after (event db1 sid2 ev2 ts2 md2 now2))
  = examSessions (db_after (event db2 sid1 ev1 ts1 md1 now1))
  ∧ users (db_after (event db1 sid2 ev2 ts2 md2 now2))
    = users (db_after (event db2 sid1 ev1 ts1 md1 now1))
  ∧ emitted (event db2 sid1 ev1 ts1 md1 now1)
    = emitted (event db sid1 ev1 ts1 md1 now1)
  ∧ emitted (event db1 sid2 ev2 ts2 md2 now2)
    = emitted (event db sid2 ev2 ts2 md2 now2).
Proof.
  intros Hne db1 db2.
  pose proof (find_after_other_event db sid1 ev1 ts1 md1 now1 sid2
                (not_eq_sym Hne)) as H21.
  pose proof (find_after_other_event db sid2 ev2 ts2 md2 now2 sid1 Hne) as H12.
  fold db1 in H21. fold db2 in H12.
  destruct (list_find (λ s, ExamSession.id s = sid1) (examSessions db))
    as [[i1 s1]|] eqn:Hf1;
  destruct (list_find (λ s, ExamSession.id s = sid2) (examSessions db))
    as [[i2 s2]|] eqn:Hf2.
  - rewrite (event_found _ _ _ _ _ _ _ _ H21), (event_found _ _ _ _ _ _ _ _ H12).
    rewrite (event_found _ _ _ _ _ _ _ _ Hf1), (event_found _ _ _ _ _ _ _ _ Hf2).
    subst db1 db2.
    rewrite (event_found _ _ _ _ _ _ _ _ Hf1), (event_found _ _ _ _ _ _ _ _ Hf2).
    cbn. split_and!; try done.
    apply list_insert_insert_ne.
    apply list_find_Some in Hf1 as (Hi1 & Hid1 & _).
    apply list_find_Some in Hf2 as (Hi2 & Hid2 & _).
    intros ->. congruence.
  - rewrite (event_found _ _ _ _ _ _ _ _ H12), (event_not_found _ _ _ _ _ _ H21).
    rewrite (event_found _ _ _ _ _ _ _ _ Hf1), (event_not_found _ _ _ _ _ _ Hf2).
    subst db1 db2.
    rewrite (event_found _ _ _ _ _ _ _ _ Hf1), (event_not_found _ _ _ _ _ _ Hf2).
    cbn. done.
  - rewrite (event_not_found _ _ _ _ _ _ H12), (event_found _ _ _ _ _ _ _ _ H21).
    rewrite (event_not_found _ _ _ _ _ _ Hf1), (event_found _ _ _ _ _ _ _ _ Hf2).
    subst db1 db2.
    rewrite (event_not_found _ _ _ _ _ _ Hf1), (event_found _ _ _ _ _ _ _ _ Hf2).
    cbn. done.
  - rewrite (event_not_found _ _ _ _ _ _ H12), (event_not_found _ _ _ _ _ _ H21).
    rewrite (event_not_found _ _ _ _ _ _ Hf1), (event_not_found _ _ _ _ _ _ Hf2).
    subst db1 db2.
    rewrite (event_not_found _ _ _ _ _ _ Hf1), (event_not_found _ _ _ _ _ _ Hf2).
    done.
Qed.

(** *** The chat reply *)

Lemma append_String c a b : String c a +:+ b = String c (a +:+ b).
Proof. reflexivity. Qed.

Lemma append_empty b : "" +:+ b = b.
Proof. reflexivity. Qed.

Lemma prefix_spec p : ∀ s, String.prefix p s = true ↔ ∃ b, s = p +:+ b.
Proof.
  induction p as [|c p IH]; intros s.
  - split; [intros _; by exists s|]. intros _. by destruct s.
  - destruct s as [|d s]; cbn.
    + split; [done|]. intros [b Hb]. done.
    + destruct (Ascii.ascii_dec c d) as [->|Hne].
      * rewrite IH. split; intros [b Hb]; exists b;
          rewrite append_String in *; congruence.
      * split; [done|]. intros [b Hb]. rewrite append_String in Hb. congruence.
Qed.

Lemma includes_spec p : ∀ s,
  includes s p = true ↔ ∃ a b, s = a +:+ p +:+ b.
Proof.
  induction s as [|c s IH]; cbn [includes].
  - destruct (String.prefix p "") eqn:Hp.
    + split; [intros _|done]. apply prefix_spec in Hp as [b Hb].
      exists "", b. done.
    + split; [done|]. intros (a & b & Hab).
      destruct a; [|done]. rewrite append_empty in Hab.
      assert (String.prefix p "" = true) by (apply prefix_spec; by exists b).
      congruence.
  - destruct (String.prefix p (String c s)) eqn:Hp.
    + split; [intros _|done]. apply prefix_spec in Hp as [b Hb].
      exists "", b. done.
    + rewrite IH. split.
      * intros (a & b & ->). by exists (String c a), b.
      * intros (a & b & Hab). destruct a as [|c' a].
        -- rewrite append_empty in Hab.
           assert (String.prefix p (String c s) = true)
             by (apply prefix_spec; by exists b).
           congruence.
        -- rewrite append_String in Hab. injection Hab as -> ->. by exists a, b.
Qed.

Lemma toLowerCase_app a b :
  toLowerCase (a +:+ b) = toLowerCase a +:+ toLowerCase b.
Proof.
  induction a as [|c a IH]; [done|].
  rewrite append_String. cbn [toLowerCase]. by rewrite IH.
Qed.

Lemma lower_char_idemp c : lower_char (lower_char c) = lower_char c.
Proof.
  destruct c as [[] [] [] [] [] [] [] []]; vm_compute; reflexivity.
Qed.

Lemma toLowerCase_idemp s : toLowerCase (toLowerCase s) = toLowerCase s.
Proof. induction s as [|c s IH]; cbn; [done|]. by rewrite lower_char_idemp, IH. Qed.

(** X14.  The reply is chosen by the keywords that occur in the lower-cased
    message: the help text when [help] occurs, the timer text when [time]
    occurs and [help] does not, and the default text when neither does. *)
Theorem invigilator_reply_by_keyword message :
  let has k := ∃ a b, toLowerCase message = a +:+ k +:+ b in
  (has "help" →
   getAIInvigilatorReply message
   = "I am your virtual invigilator. Please stay focused on the exam. Do you have a technical issue?")
  ∧ (¬ has "help" → has "time" →
     getAIInvigilatorReply message
     = "The timer is displayed on your screen. Please manage your time effectively.")
  ∧ (¬ has "help" → ¬ has "time" →
     getAIInvigilatorReply message
     = "Please remain quiet and focus on your exam. Unnecessary chatting may be flagged.").
Proof.
  intros has. unfold getAIInvigilatorReply.
  assert (includes (toLowerCase message) "help" = true ↔ has "help") as Hhelp
    by apply includes_spec.
  assert (includes (toLowerCase message) "time" = true ↔ has "time") as Htime
    by apply includes_spec.
  destruct (includes (toLowerCase message) "help").
  - split_and!; [done| |]; intros Hn; destruct Hn; by apply Hhelp.
  - destruct (includes (toLowerCase message) "time").
    + split_and!; [|done|].
      * intros Hh. by apply Hhelp in Hh.
      * intros _ Hn. destruct Hn. by apply Htime.
    + split_and!; [| |done].
      * intros Hh. by apply Hhelp in Hh.
      * intros _ Ht. by apply Htime in Ht.
Qed.

(** X15.  A message in which the word help occurs in any capitalisation gets
    the help text, whatever surrounds the word; and a message gets the
    reply of its lower-cased form. *)
Theorem help_wins_in_any_capitalisation pre w post :
  toLowerCase w = "help" →
  getAIInvigilatorReply (pre +:+ w +:+ post)
  = "I am your virtual invigilator. Please stay focused on the exam. Do you have a technical issue?"
  ∧ ∀ message,
      getAIInvigilatorReply (toLowerCase message) = getAIInvigilatorReply message.
Proof.
  intros Hw. split.
  - unfold getAIInvigilatorReply.
    assert (includes (toLowerCase (pre +:+ w +:+ post)) "help" = true) as ->;
      [|done].
    apply includes_spec. rewrite !toLowerCase_app, Hw. by eexists _, _.
  - intros message. unfold getAIInvigilatorReply.
    by rewrite toLowerCase_idemp.
Qed.

(** *** The log of one session *)

Lemma find_stable db r sid j x :
  list_find (λ s, ExamSession.id s = sid) (examSessions db) = Some (j, x) →
  ∃ x', list_find (λ s, ExamSession.id s = sid)
          (examSessions (db_after (handle db r))) = Some (j, x').
Proof.
  intros Hfind. destruct r as [u now|u e now date|sid0 ev ts md now|sid0]; cbn.
  - exists x. unfold login. by destruct (list_find _ (users db)) as [[??]|].
  - exists x. by apply list_find_app_l.
  - destruct (decide (sid = sid0)) as [->|Hne].
    + rewrite (event_found _ _ _ _ _ _ _ _ Hfind). cbn. eexists.
      apply (list_find_insert_hit _ _ _ _ _ Hfind). rewrite score_event_id.
      by apply list_find_Some in Hfind as (_ & Hid & _).
    + exists x. by rewrite find_after_other_event.
  - exists x. unfold report.
    by destruct (list_find (λ s, ExamSession.id s = sid0) (examSessions db))
      as [[??]|].
Qed.

Lemma serve_find_stable rs : ∀ db sid j x,
  list_find (λ s, ExamSession.id s = sid) (examSessions db) = Some (j, x) →
  ∃ x', list_find (λ s, ExamSession.id s = sid)
          (examSessions (serve db rs)) = Some (j, x').
Proof.
  induction rs as [|r rs IH]; intros db sid j x Hfind; [by exists x|].
  unfold serve. cbn [foldl]. fold (serve (db_after (handle db r)) rs).
  destruct (find_stable db r sid j x Hfind) as [x' Hx']. by eapply IH.
Qed.

Lemma serve_logs_of rs : ∀ db sid i s,
  list_find (λ s, ExamSession.id s = sid) (examSessions (serve db rs))
  = Some (i, s) →
  LogEntry.eventType <$> logs_of (serve db rs) sid
  = (LogEntry.eventType <$> logs_of db sid) ++ events_on i db rs.
Proof.
  induction rs as [|r rs IH]; intros db sid i s Hfinal; [by rewrite app_nil_r|].
  revert Hfinal. unfold serve. cbn [foldl events_on].
  fold (serve (db_after (handle db r)) rs). intros Hfinal.
  rewrite (IH _ _ _ _ Hfinal).
  unfold logs_of at 1. rewrite handle_logs, filter_app, fmap_app, <- app_assoc.
  fold (logs_of db sid). f_equal.
  destruct r as [u now|u e now date|sid0 ev ts md now|sid0]; cbn [target handle].
  - unfold login. by destruct (list_find _ (users db)) as [[??]|].
  - done.
  - destruct (list_find (λ s, ExamSession.id s = sid0) (examSessions db))
      as [[j sj]|] eqn:Hfind.
    + rewrite (event_found _ _ _ _ _ _ _ _ Hfind). cbn [response logged].
      rewrite filter_cons, filter_nil. cbn [LogEntry.sessionId].
      destruct (serve_find_stable (Event sid0 ev ts md now :: rs) db sid0 j sj Hfind)
        as [sj' Hj']. revert Hj'. unfold serve. cbn [foldl handle].
      fold (serve (db_after (event db sid0 ev ts md now)) rs). intros Hj'.
      change (handle db (Event sid0 ev ts md now))
        with (event db sid0 ev ts md now) in Hfinal.
      destruct (decide (sid0 = sid)) as [->|Hne].
      * rewrite Hj' in Hfinal. injection Hfinal as -> ->.
        by rewrite decide_True.
      * rewrite decide_False; [done|]. intros ->.
        apply list_find_Some in Hj' as (Hl1 & Hid1 & _).
        apply list_find_Some in Hfinal as (Hl2 & Hid2 & _).
        congruence.
    + by rewrite (event_not_found _ _ _ _ _ _ Hfind).
  - unfold report.
    by destruct (list_find (λ s, ExamSession.id s = sid0) (examSessions db))
      as [[??]|].
Qed.

(** X16.  In a store reached from the empty one, the log entries that a
    report lists for a session id are those of the events processed on the
    session it carries, one entry per event and in the order they were
    processed. *)
Theorem report_lists_events_processed rs sid i s r :
  list_find (λ s, ExamSession.id s = sid) (examSessions (serve MOCK_DB rs))
  = Some (i, s) →
  response (report (serve MOCK_DB rs) sid) = ReportOk r →
  session r = s
  ∧ LogEntry.eventType <$> events r = events_on i MOCK_DB rs
  ∧ Forall (λ l, LogEntry.sessionId l = sid
                 ∧ LogEntry.impact l = calculateRisk (LogEntry.eventType l))
      (events r).
Proof.
  intros Hfind. unfold report. rewrite Hfind. cbn. intros [= <-]. cbn.
  split_and!; [done| |].
  - apply (serve_logs_of rs MOCK_DB sid i s Hfind).
  - apply Forall_forall. intros l Hl.
    apply list_elem_of_filter in Hl as [Hsid Hl]. split; [done|].
    pose proof (serve_logs_impact rs MOCK_DB (Forall_nil_2 _)) as Hall.
    eapply Forall_forall in Hall; [exact Hall|exact Hl].
Qed.

(** *** The further properties at concrete inputs *)

(** The session of the scenario after its four events. *)
Lemma stored_sessions_invariant_scenario :
  let s := ExamSession.mk "1000" "u1" "exam1" 1000 65 4 ExamSession.high_risk in
  s ∈ examSessions (serve MOCK_DB (take 5 scenario))
  ∧ 0 ≤ ExamSession.riskScore s ≤ 100
  ∧ (ExamSession.status s = ExamSession.high_risk ↔ 3 ≤ ExamSession.warnings s).
Proof.
  intros s.
  assert (s ∈ examSessions (serve MOCK_DB (take 5 scenario))) as Hin.
  { apply (list_elem_of_lookup_2 _ 0%nat). vm_compute. reflexivity. }
  split; [exact Hin|].
  destruct (stored_sessions_invariant (take 5 scenario) s Hin)
    as (_ & Hr & Hst & _).
  split; [exact Hr|exact Hst].
Defined.

(** The second log entry of the scenario. *)
Lemma log_entries_name_stored_sessions_scenario :
  let l := LogEntry.mk "1002" "1000" "looking_away" "t2" "{}" 10 in
  l ∈ logs (serve MOCK_DB scenario)
  ∧ LogEntry.impact l = calculateRisk (LogEntry.eventType l)
  ∧ ∃ i s,
      list_find (λ s, ExamSession.id s = "1000")
        (examSessions (serve MOCK_DB scenario)) = Some (i, s).
Proof.
  intros l.
  assert (l ∈ logs (serve MOCK_DB scenario)) as Hin.
  { apply (list_elem_of_lookup_2 _ 1%nat). vm_compute. reflexivity. }
  split; [exact Hin|].
  exact (log_entries_name_stored_sessions scenario l Hin).
Defined.

(** The report of the scenario. *)
Lemma report_totals_match_events_scenario :
  ∃ r,
    response (report (serve MOCK_DB (take 5 scenario)) "1000") = ReportOk r
    ∧ totalWarnings r = warning_entries (events r)
    ∧ finalRiskScore r = Z.min 100 (total_impact (events r)).
Proof.
  eexists. split; [vm_compute; reflexivity|].
  apply (report_totals_match_events (take 5 scenario) "1000").
  vm_compute. reflexivity.
Defined.

(** Two sessions started at the same clock reading: an event with their id
    leaves the second one as it was created. *)
Lemma shadowed_session_never_changes_twins :
  let db := serve MOCK_DB [Start "u1" "exam1" 5 5; Start "u2" "exam1" 5 6] in
  let s1 := ExamSession.mk "5" "u1" "exam1" 5 0 0 ExamSession.ongoing in
  let s2 := ExamSession.mk "5" "u2" "exam1" 6 0 0 ExamSession.ongoing in
  (0 < 1)%nat
  ∧ examSessions db !! 0%nat = Some s1
  ∧ examSessions db !! 1%nat = Some s2
  ∧ ExamSession.id s1 = ExamSession.id s2
  ∧ examSessions (serve db [Event "5" "no_face" "t" "{}" 7]) !! 1%nat = Some s2.
Proof.
  intros db s1 s2.
  assert (examSessions db !! 0%nat = Some s1) as H0 by (vm_compute; reflexivity).
  assert (examSessions db !! 1%nat = Some s2) as H1 by (vm_compute; reflexivity).
  split_and!; [lia|exact H0|exact H1|reflexivity|].
  apply (shadowed_session_never_changes [Event "5" "no_face" "t" "{}" 7]
           db 0%nat 1%nat s1 s2); [lia|exact H0|exact H1|reflexivity].
Defined.



(** An event of unknown type on the session of the scenario. *)
Lemma zero_impact_event_only_logs_scenario :
  calculateRisk "blink" = 0
  ∧ examSessions
      (db_after (event (serve MOCK_DB (take 3 scenario)) "1000" "blink" "t" "{}"
                   1009))
    = examSessions (serve MOCK_DB (take 3 scenario)).
Proof.
  assert (calculateRisk "blink" = 0) as Himp by (vm_compute; reflexivity).
  split; [exact Himp|].
  destruct (zero_impact_event_only_logs (take 3 scenario) "1000" "blink" "t" "{}"
              1009 Himp) as (_ & Hsessions & _).
  exact Hsessions.
Defined.

(** The third event of the scenario. *)
Lemma high_risk_emitted_iff_status_scenario :
  ∃ l s',
    response (event (serve MOCK_DB (take 3 scenario)) "1000" "multiple_faces"
                "t3" "{}" 1003) = EventOk l s'
    ∧ (high_risks_in
         (emitted (event (serve MOCK_DB (take 3 scenario)) "1000"
                     "multiple_faces" "t3" "{}" 1003))
       = [high_risk_emit "1000"]
       ↔ ExamSession.status s' = ExamSession.high_risk).
Proof.
  eexists _, _. split; [vm_compute; reflexivity|].
  refine (proj1 (high_risk_emitted_iff_status (take 3 scenario) "1000"
                   "multiple_faces" "t3" "{}" 1003 _ _ _)).
  vm_compute. reflexivity.
Defined.

(** Two sessions and one event for each. *)
Lemma events_of_different_sessions_commute_pair :
  let db := serve MOCK_DB [Start "u1" "exam1" 1000 1000;
                           Start "u2" "exam1" 2000 2000] in
  "1000" ≠ "2000"
  ∧ examSessions
      (db_after (event (db_after (event db "1000" "no_face" "a" "{}" 2001))
                   "2000" "tab_switch" "b" "{}" 2002))
    = examSessions
        (db_after (event (db_after (event db "2000" "tab_switch" "b" "{}" 2002))
                     "1000" "no_face" "a" "{}" 2001)).
Proof.
  intros db.
  assert ("1000" ≠ "2000") as Hne by discriminate.
  split; [exact Hne|].
  destruct (events_of_different_sessions_commute db
              "1000" "no_face" "a" "{}" 2001 "2000" "tab_switch" "b" "{}" 2002 Hne)
    as (Hsessions & _).
  exact Hsessions.
Defined.

(** A message with both keywords. *)
Lemma invigilator_reply_by_keyword_both :
  (∃ a b, toLowerCase "What TIME is it? Help!" = a +:+ "help" +:+ b)
  ∧ getAIInvigilatorReply "What TIME is it? Help!"
    = "I am your virtual invigilator. Please stay focused on the exam. Do you have a technical issue?".
Proof.
  assert (∃ a b, toLowerCase "What TIME is it? Help!" = a +:+ "help" +:+ b)
    as Hhas by (exists "what time is it? ", "!"; vm_compute; reflexivity).
  split; [exact Hhas|].
  destruct (invigilator_reply_by_keyword "What TIME is it? Help!") as (Hhelp & _).
  exact (Hhelp Hhas).
Defined.

(** The word in capitals, inside a sentence. *)
Lemma help_wins_in_any_capitalisation_capitals :
  toLowerCase "HELP" = "help"
  ∧ getAIInvigilatorReply ("I need " +:+ "HELP" +:+ " with the time")
    = "I am your virtual invigilator. Please stay focused on the exam. Do you have a technical issue?".
Proof.
  assert (toLowerCase "HELP" = "help") as Hw by (vm_compute; reflexivity).
  split; [exact Hw|].
  exact (proj1 (help_wins_in_any_capitalisation "I need " "HELP" " with the time"
                  Hw)).
Defined.

(** The report of the scenario lists its four events. *)
Lemma report_lists_events_processed_scenario :
  ∃ s r,
    list_find (λ s, ExamSession.id s = "1000")
      (examSessions (serve MOCK_DB (take 5 scenario))) = Some (0%nat, s)
    ∧ response (report (serve MOCK_DB (take 5 scenario)) "1000") = ReportOk r
    ∧ LogEntry.eventType <$> events r
      = ["tab_switch"; "looking_away"; "multiple_faces"; "fast_answering"].
Proof.
  eexists _, _.
  split; [vm_compute; reflexivity|]. split; [vm_compute; reflexivity|].
  destruct (report_lists_events_processed (take 5 scenario) "1000" 0 _ _
              ltac:(vm_compute; reflexivity) ltac:(vm_compute; reflexivity))
    as (_ & Hevents & _).
  rewrite Hevents. vm_compute. reflexivity.
Defined.
